(** * Textify WebSocket server: session, pairing, relay and moderation engine

    A shallow embedding of the server script in its latest form (admin
    envelopes, reports, bans, bad-word filter and WebRTC signaling):
    matchmaking through a single waiting slot, the table of active pairs,
    the relay helpers, the report log, the ban lists and the dispatch of
    inbound envelopes, followed by the properties established about them.

    Conventions of the embedding:
    - a value produced by [JSON.parse] is a [json]; a property read that
      yields [undefined] is [None] in [option json];
    - JavaScript strings are modelled by [string], read as ASCII text:
      [toLowerCase] maps the letters A-Z and [trim] removes the six ASCII
      white-space characters; the Unicode case mapping and the Unicode
      spaces are outside the model, and the properties that depend on
      either are stated for ASCII text ([is_ascii]);
    - numbers are the integers ([Z]), printed in decimal, which is what
      [String] gives for integers of magnitude below 2^53; [String] of an
      object is taken as ['[object Object]'], as it is for every object
      without a [toString] property of its own;
    - a socket object is a reference ([nat]) into the heap [sockets], so
      that the waiting slot, the pair table and [wss.clients] share the
      one mutable [readyState] of a socket;
    - every call of [socket.send], [socket.close], [saveReports] and
      [saveBans] is recorded, in order, as an [Effect]; a payload is
      recorded as the object given to [JSON.stringify]; [send] and [close]
      are taken not to throw;
    - the identifier of a connection ([generateId]), the client address and
      the time stamp of a report are inputs carried by the events;
    - the heartbeat is modelled on its own, over the [isAlive] flags; in
      the runs its outcome is a socket that the transport closes;
    - an exception that nothing catches ends the process: a reload of the
      word list that throws is such an end, and a run is not continued
      past it (the event leaves the state as it is);
    - console output is not modelled. *)

From stdpp Require Import gmap strings list fin_maps pretty.
From Stdlib Require Import ZArith Ascii String.

Local Open Scope Z_scope.
Local Set Warnings "-register-all".

(** ** JavaScript values *)

Module Js.

Inductive json : Type :=
| JNull
| JBool (b : bool)
| JNum (n : Z)
| JStr (s : string)
| JArr (items : list json)
| JObj (fields : list (string * json)).

(** [ToBoolean]: [undefined], [null], [false], [0] and the empty string are
    falsy, everything else (arrays and objects included) is truthy. *)
Definition truthy (v : option json) : bool :=
  match v with
  | None | Some JNull => false
  | Some (JBool b) => b
  | Some (JNum n) => negb (n =? 0)
  | Some (JStr s) => negb (String.eqb s "")
  | Some (JArr _) | Some (JObj _) => true
  end.

(** [v || null] *)
Definition or_null (v : option json) : json :=
  match v with
  | Some x => if truthy v then x else JNull
  | None => JNull
  end.

(** [v || 'lit'] *)
Definition or_str (v : option json) (lit : string) : json :=
  match v with
  | Some x => if truthy v then x else JStr lit
  | None => JStr lit
  end.

Fixpoint assoc (k : string) (fields : list (string * json)) : option json :=
  match fields with
  | [] => None
  | (k', v) :: rest => if String.eqb k' k then Some v else assoc k rest
  end.

(** [msg.k] for a value that is not [null]: own properties exist on objects
    only (none of the keys read by the server is an array or string
    built-in). *)
Definition prop (msg : json) (k : string) : option json :=
  match msg with
  | JObj fields => assoc k fields
  | _ => None
  end.

(** Strict equality [===] (and [SameValueZero], which agrees with it away
    from NaN) between a freshly parsed value and a stored one: primitives
    compare by value, arrays and objects by reference, and a fresh parse
    result is never the same reference as a stored value. *)
Definition strict_eq (a b : json) : bool :=
  match a, b with
  | JNull, JNull => true
  | JBool x, JBool y => Bool.eqb x y
  | JNum x, JNum y => x =? y
  | JStr x, JStr y => String.eqb x y
  | _, _ => false
  end.

(** [arr.includes(x)] *)
Definition includes_val (arr : list json) (x : json) : bool :=
  existsb (fun y => strict_eq y x) arr.

(** [arr.filter(y => y !== x)] *)
Definition filter_ne (arr : list json) (x : json) : list json :=
  List.filter (fun y => negb (strict_eq y x)) arr.

Fixpoint join (sep : string) (parts : list string) : string :=
  match parts with
  | [] => ""
  | [p] => p
  | p :: rest => p +:+ sep +:+ join sep rest
  end.

(** [String(v)]: arrays are joined with commas, [null] elements printing as
    the empty string. *)
Fixpoint to_String (v : json) : string :=
  match v with
  | JNull => "null"
  | JBool true => "true"
  | JBool false => "false"
  | JNum n => pretty n
  | JStr s => s
  | JArr items =>
      join "," ((fix elems (l : list json) : list string :=
                   match l with
                   | [] => []
                   | JNull :: r => "" :: elems r
                   | x :: r => to_String x :: elems r
                   end) items)
  | JObj _ => "[object Object]"
  end.

Definition lower_ascii (c : ascii) : ascii :=
  let n := N_of_ascii c in
  if ((65 <=? n) && (n <=? 90))%N then ascii_of_N (n + 32) else c.

Fixpoint toLowerCase (s : string) : string :=
  match s with
  | EmptyString => EmptyString
  | String c r => String (lower_ascii c) (toLowerCase r)
  end.

Fixpoint startsWith (s w : string) {struct w} : bool :=
  match w, s with
  | EmptyString, _ => true
  | String _ _, EmptyString => false
  | String a w', String b s' => Ascii.eqb a b && startsWith s' w'
  end.

(** [s.includes(w)] *)
Fixpoint includes (s w : string) : bool :=
  startsWith s w ||
  match s with
  | EmptyString => false
  | String _ s' => includes s' w
  end.

(** An object literal handed to [JSON.stringify]: the properties whose
    value is [undefined] are left out of the text. *)
Fixpoint object (fields : list (string * option json)) : list (string * json) :=
  match fields with
  | [] => []
  | (k, Some v) :: rest => (k, v) :: object rest
  | (_, None) :: rest => object rest
  end.

(** [obj[k] = v]: an existing key keeps its place, a new one goes last. *)
Fixpoint set_prop (k : string) (v : json) (fields : list (string * json))
  : list (string * json) :=
  match fields with
  | [] => [(k, v)]
  | (k', v') :: rest =>
      if String.eqb k' k then (k, v) :: rest else (k', v') :: set_prop k v rest
  end.

(** [Object.assign({}, message)]: the own properties are copied by
    assignment, in order; assigning the key [__proto__] sets the prototype
    of the copy and creates no property, so that key is not in the text
    [JSON.stringify] makes of the copy. *)
Fixpoint assign (fields : list (string * json)) : list (string * json) :=
  match fields with
  | [] => []
  | (k, v) :: rest =>
      if String.eqb k "__proto__" then assign rest else (k, v) :: assign rest
  end.

End Js.

Import Js.

(** ** Sockets, connections and the server state *)

(** [WebSocket.CONNECTING], [OPEN], [CLOSING], [CLOSED] *)
Inductive ReadyState := CONNECTING | OPEN | CLOSING | CLOSED.

Definition is_OPEN (r : ReadyState) : bool :=
  match r with OPEN => true | _ => false end.

(** A socket object: the two fields the connection handler stores on it,
    the transport's [readyState], and whether the handler went on to
    register its message/close/error listeners. *)
Record Socket := mkSocket {
  userId : string;
  ip : string;
  readyState : ReadyState;
  listening : bool
}.

(** A value of [activeConnections]: [{ socket, partnerId }]. *)
Record Conn := mkConn {
  socket : nat;
  partnerId : string
}.

(** What the script does to the outside world. *)
Inductive Effect :=
| Send (s : nat) (payload : json)
| Close (s : nat)
| SaveReports (log : list json)
| SaveBans (ips userIds : list json).

(** The module-level variables of the script, the heap of socket objects,
    [wss.clients] and [process.env.ADMIN_KEY]. *)
Record State := mkState {
  BAD_WORDS : list string;
  reports : list json;
  bans_ips : list json;
  bans_userIds : list json;
  waitingUser : option (string * nat);
  activeConnections : gmap string Conn;
  sockets : gmap nat Socket;
  clients : list nat;
  ADMIN_KEY : option string
}.

Definition set_BAD_WORDS (v : list string) (st : State) : State :=
  mkState v (reports st) (bans_ips st) (bans_userIds st) (waitingUser st)
          (activeConnections st) (sockets st) (clients st) (ADMIN_KEY st).
Definition set_reports (v : list json) (st : State) : State :=
  mkState (BAD_WORDS st) v (bans_ips st) (bans_userIds st) (waitingUser st)
          (activeConnections st) (sockets st) (clients st) (ADMIN_KEY st).
Definition set_bans (vi vu : list json) (st : State) : State :=
  mkState (BAD_WORDS st) (reports st) vi vu (waitingUser st)
          (activeConnections st) (sockets st) (clients st) (ADMIN_KEY st).
Definition set_waitingUser (v : option (string * nat)) (st : State) : State :=
  mkState (BAD_WORDS st) (reports st) (bans_ips st) (bans_userIds st) v
          (activeConnections st) (sockets st) (clients st) (ADMIN_KEY st).
Definition set_activeConnections (v : gmap string Conn) (st : State) : State :=
  mkState (BAD_WORDS st) (reports st) (bans_ips st) (bans_userIds st)
          (waitingUser st) v (sockets st) (clients st) (ADMIN_KEY st).
Definition set_sockets (v : gmap nat Socket) (st : State) : State :=
  mkState (BAD_WORDS st) (reports st) (bans_ips st) (bans_userIds st)
          (waitingUser st) (activeConnections st) v (clients st) (ADMIN_KEY st).
Definition set_clients (v : list nat) (st : State) : State :=
  mkState (BAD_WORDS st) (reports st) (bans_ips st) (bans_userIds st)
          (waitingUser st) (activeConnections st) (sockets st) v (ADMIN_KEY st).

(** [s.readyState]; a reference outside the heap reads as [CLOSED]. *)
Definition readyState_of (st : State) (s : nat) : ReadyState :=
  match sockets st !! s with
  | Some k => readyState k
  | None => CLOSED
  end.

Definition set_readyState (s : nat) (r : ReadyState) (st : State) : State :=
  match sockets st !! s with
  | Some k =>
      set_sockets (<[s := mkSocket (userId k) (ip k) r (listening k)]> (sockets st)) st
  | None => st
  end.

(** [s.close()]: an open socket starts its closing handshake; on a socket
    that is already closing or closed the call changes nothing. *)
Definition close (s : nat) (st : State) : State :=
  match readyState_of st s with
  | OPEN | CONNECTING => set_readyState s CLOSING st
  | CLOSING | CLOSED => st
  end.

(** ** Bad words *)

(** [new Set(array)]: the first occurrence of each element, in order. *)
Fixpoint Set_of (seen : list string) (l : list string) : list string :=
  match l with
  | [] => []
  | w :: r =>
      if existsb (String.eqb w) seen then Set_of seen r
      else w :: Set_of (w :: seen) r
  end.

(** [loadBadWordsSet], applied to what [safeReadJSON] returned.  [None]
    stands for the [TypeError] of reading [.words] off [null], which
    nothing catches. *)
Definition loadBadWordsSet (data : json) : option (list string) :=
  match data with
  | JNull => None
  | _ =>
      match prop data "words" with
      | Some (JArr words) =>
          Some (Set_of [] (map (fun w => toLowerCase (to_String w)) words))
      | _ => Some []
      end
  end.

Definition containsBadWord (bad : list string) (text : option json) : bool :=
  match text with
  | Some t =>
      if truthy text then
        let lower := toLowerCase (to_String t) in
        existsb (fun w => negb (String.eqb w "") && includes lower w) bad
      else false
  | None => false
  end.

(** ** Outbound notifications *)

Definition note (type : string) (rest : list (string * json)) : json :=
  JObj (("type", JStr type) :: rest).

Definition searching : json := note "searching" [].
Definition partner_found (peer : string) : json :=
  note "partner_found" [("partnerId", JStr peer)].
Definition partner_disconnected : json := note "partner_disconnected" [].
Definition connected (uid : string) : json := note "connected" [("userId", JStr uid)].
Definition banned (reason : string) : json := note "banned" [("reason", JStr reason)].
Definition warning : json :=
  note "warning" [("text", JStr "⚠ Your message contained harmful language and was not sent.")].

(** ** Matchmaking and relay *)

Definition findPartner (uid : string) (sock : nat) (st : State) : State * list Effect :=
  match activeConnections st !! uid with
  | Some _ => (st, [])
  | None =>
      let wait := (set_waitingUser (Some (uid, sock)) st, [Send sock searching]) in
      match waitingUser st with
      | Some (partnerId, partnerSocket) =>
          if negb (String.eqb partnerId uid) then
            if negb (is_OPEN (readyState_of st partnerSocket)) then wait
            else
              let table :=
                <[partnerId := mkConn partnerSocket uid]>
                  (<[uid := mkConn sock partnerId]> (activeConnections st)) in
              (set_waitingUser None (set_activeConnections table st),
               [Send sock (partner_found partnerId);
                Send partnerSocket (partner_found uid)])
          else wait
      | None => wait
      end
  end.

(** The socket a relay helper writes to: the one stored in the entry of the
    sender's partner, when the sender has an entry with a (non-empty)
    partner, the partner has an entry, and that entry's socket is open. *)
Definition partner_target (uid : string) (st : State) : option nat :=
  match activeConnections st !! uid with
  | None => None
  | Some conn =>
      if String.eqb (partnerId conn) "" then None
      else
        match activeConnections st !! partnerId conn with
        | Some partnerConn =>
            if is_OPEN (readyState_of st (socket partnerConn))
            then Some (socket partnerConn) else None
        | None => None
        end
  end.

Definition forwardToPartner (uid : string) (message : list (string * json)) (st : State)
  : State * list Effect :=
  match partner_target uid st with
  | Some s => (st, [Send s (JObj (set_prop "from" (JStr uid) (assign message)))])
  | None => (st, [])
  end.

Definition sendToPartner (uid : string) (text : json) (st : State) : State * list Effect :=
  match partner_target uid st with
  | Some s => (st, [Send s (note "message" [("text", text)])])
  | None => (st, [])
  end.

Definition notifyTyping (uid : string) (isTyping : option json) (st : State)
  : State * list Effect :=
  match partner_target uid st with
  | Some s => (st, [Send s (JObj (object [("type", Some (JStr "typing")); ("isTyping", isTyping)]))])
  | None => (st, [])
  end.

Definition clear_waiting (uid : string) (st : State) : State :=
  match waitingUser st with
  | Some (w, _) => if String.eqb w uid then set_waitingUser None st else st
  | None => st
  end.

Definition disconnectPair (uid : string) (st : State) : State * list Effect :=
  match activeConnections st !! uid with
  | Some conn =>
      if negb (String.eqb (partnerId conn) "") then
        let '(st1, out) :=
          match activeConnections st !! partnerId conn with
          | Some partnerConn =>
              if is_OPEN (readyState_of st (socket partnerConn)) then
                (set_activeConnections (delete (partnerId conn) (activeConnections st)) st,
                 [Send (socket partnerConn) partner_disconnected])
              else (st, [])
          | None => (st, [])
          end in
        (set_activeConnections (delete uid (activeConnections st1)) st1, out)
      else (clear_waiting uid st, [])
  | None => (clear_waiting uid st, [])
  end.

Definition handleDisconnection (uid : string) (st : State) : State * list Effect :=
  disconnectPair uid (clear_waiting uid st).

(** ** The report log *)

(** [reports.unshift(entry); if (reports.length > cap) reports.pop();] *)
Definition unshift_capped (cap : nat) (entry : json) (log : list json) : list json :=
  let log' := entry :: log in
  if (cap <? List.length log')%nat then removelast log' else log'.

Definition auto_report (uid : string) (text : json) (now : string) (st : State) : json :=
  let conn := activeConnections st !! uid in
  JObj [("reporterId", JStr uid);
        ("reportedId",
         or_null (match conn with Some c => Some (JStr (partnerId c)) | None => None end));
        ("reportedIp",
         or_null (match conn with
                  | Some c =>
                      match sockets st !! socket c with
                      | Some k => Some (JStr (ip k))
                      | None => None
                      end
                  | None => None
                  end));
        ("reason", JStr "Auto moderation: toxic message");
        ("message", text);
        ("time", JStr now)].

Definition user_report (uid : string) (msg : json) (now : string) : json :=
  JObj [("reporterId", JStr uid);
        ("reportedId", or_null (prop msg "reportedId"));
        ("reportedIp", or_null (prop msg "reportedIp"));
        ("reason", or_str (prop msg "reason") "user_report");
        ("message", or_null (prop msg "message"));
        ("time", JStr now)].

(** ** Admin envelopes *)

(** [msg.adminKey === process.env.ADMIN_KEY]: an environment variable is a
    string or [undefined]. *)
Definition authorized (key : option json) (secret : option string) : bool :=
  match key, secret with
  | None, None => true
  | Some (JStr k), Some s => String.eqb k s
  | _, _ => false
  end.

(** [arr.push(x)] guarded by [x && !arr.includes(x)] *)
Definition push_new (arr : list json) (x : json) : list json :=
  if truthy (Some x) && negb (includes_val arr x) then arr ++ [x] else arr.

(** [if (x) arr = arr.filter(y => y !== x)] *)
Definition remove_val (arr : list json) (x : json) : list json :=
  if truthy (Some x) then filter_ne arr x else arr.

(** [wss.clients.size] *)
Definition getOnlineCount (st : State) : Z := Z.of_nat (List.length (clients st)).

Definition get_user_count (sock : nat) (st : State) : State * list Effect :=
  (st, [Send sock (note "user_count" [("count", JNum (getOnlineCount st))])]).

Definition get_reports (sock : nat) (st : State) : State * list Effect :=
  (st, [Send sock (note "reports" [("reports", JArr (reports st))])]).

Definition get_bans (sock : nat) (st : State) : State * list Effect :=
  (st, [Send sock (note "bans" [("bannedIPs", JArr (bans_ips st));
                                ("bannedUserIds", JArr (bans_userIds st))])]).

(** [if (s.ip === ip && s.readyState === OPEN) { s.send(banned); s.close(); }] *)
Definition drop_one (ipv : json) (s : nat) (st : State) : State * list Effect :=
  match sockets st !! s with
  | Some k =>
      if strict_eq (JStr (ip k)) ipv && is_OPEN (readyState k)
      then (close s st, [Send s (banned "Your IP was banned."); Close s])
      else (st, [])
  | None => (st, [])
  end.

(** [wss.clients.forEach(s => ...)] *)
Fixpoint drop_ip (ipv : json) (cl : list nat) (st : State) : State * list Effect :=
  match cl with
  | [] => (st, [])
  | s :: rest =>
      let '(st1, out1) := drop_one ipv s st in
      let '(st2, out2) := drop_ip ipv rest st1 in
      (st2, out1 ++ out2)
  end.

(** [uid && activeConnections.has(uid)], then [activeConnections.get(uid)]:
    the keys of the map are strings. *)
Definition connection_of (uid : json) (st : State) : option Conn :=
  if truthy (Some uid) then
    match uid with
    | JStr u => activeConnections st !! u
    | _ => None
    end
  else None.

Definition ban_user (sock : nat) (msg : json) (st : State) : State * list Effect :=
  let uid := or_null (prop msg "userId") in
  let ipv := or_null (prop msg "ip") in
  let userIds := push_new (bans_userIds st) uid in
  let ips := push_new (bans_ips st) ipv in
  let st1 := set_bans ips userIds st in
  let '(st2, out2) :=
    match connection_of uid st1 with
    | Some c =>
        (close (socket c) st1,
         [Send (socket c) (banned "You were banned by admin."); Close (socket c)])
    | None => (st1, [])
    end in
  let '(st3, out3) := drop_ip ipv (clients st2) st2 in
  (st3, [SaveBans ips userIds; Send sock (note "ban_ack" [])] ++ out2 ++ out3).

Definition unban_user (sock : nat) (msg : json) (st : State) : State * list Effect :=
  let uid := or_null (prop msg "userId") in
  let ipv := or_null (prop msg "ip") in
  let userIds := remove_val (bans_userIds st) uid in
  let ips := remove_val (bans_ips st) ipv in
  (set_bans ips userIds st, [SaveBans ips userIds; Send sock (note "unban_ack" [])]).

(** ** The per-connection handlers *)

Inductive Kind :=
| find_partner | send_message | typing | disconnect_chat | report_user
| get_user_count_k | get_reports_k | get_bans_k | ban_user_k | unban_user_k
| video_offer | video_answer | ice_candidate
| unknown.

Definition kinds : list (string * Kind) :=
  [("find_partner", find_partner); ("send_message", send_message);
   ("typing", typing); ("disconnect_chat", disconnect_chat);
   ("report_user", report_user); ("get_user_count", get_user_count_k);
   ("get_reports", get_reports_k); ("get_bans", get_bans_k);
   ("ban_user", ban_user_k); ("unban_user", unban_user_k);
   ("video_offer", video_offer); ("video_answer", video_answer);
   ("ice_candidate", ice_candidate)].

(** [switch (msg.type)] compares with [===]. *)
Definition kind_of (type : option json) : Kind :=
  match type with
  | Some (JStr t) =>
      match List.find (fun kv => String.eqb (fst kv) t) kinds with
      | Some (_, k) => k
      | None => unknown
      end
  | _ => unknown
  end.

Definition admin_gate (msg : json) (st : State) (body : State * list Effect)
  : State * list Effect :=
  if authorized (prop msg "adminKey") (ADMIN_KEY st) then body else (st, []).

(** The body of the [switch] for a message that parsed to [msg]
    (not [null]) on the connection [(uid, sock)]; [now] is
    [new Date().toISOString()]. *)
Definition dispatch (uid : string) (sock : nat) (msg : json) (now : string) (st : State)
  : State * list Effect :=
  match kind_of (prop msg "type") with
  | find_partner => findPartner uid sock st
  | send_message =>
      match prop msg "text" with
      | None => (st, [])
      | Some text =>
          if negb (truthy (Some text)) then (st, [])
          else if containsBadWord (BAD_WORDS st) (Some text) then
            let rpt := auto_report uid text now st in
            let log := unshift_capped 1000 rpt (reports st) in
            (set_reports log st, [Send sock warning; SaveReports log])
          else sendToPartner uid text st
      end
  | typing => notifyTyping uid (prop msg "isTyping") st
  | disconnect_chat => disconnectPair uid st
  | report_user =>
      let entry := user_report uid msg now in
      let log := unshift_capped 5000 entry (reports st) in
      (set_reports log st, [SaveReports log; Send sock (note "report_ack" [])])
  | get_user_count_k => admin_gate msg st (get_user_count sock st)
  | get_reports_k => admin_gate msg st (get_reports sock st)
  | get_bans_k => admin_gate msg st (get_bans sock st)
  | ban_user_k => admin_gate msg st (ban_user sock msg st)
  | unban_user_k => admin_gate msg st (unban_user sock msg st)
  | video_offer | video_answer | ice_candidate =>
      match msg with
      | JObj fields => forwardToPartner uid fields st
      | _ => (st, [])
      end
  | unknown => (st, [])
  end.

(** [socket.on('message', raw => { try { ... } catch (err) { ... } })]:
    [parsed] is the outcome of [JSON.parse(raw)], [None] when it throws;
    reading [.type] off [null] throws as well, and both are caught. *)
Definition on_message (uid : string) (sock : nat) (parsed : option json) (now : string)
    (st : State) : State * list Effect :=
  match parsed with
  | None | Some JNull => (st, [])
  | Some msg => dispatch uid sock msg now st
  end.

(** [wss.on('connection', (socket, req) => ...)] for a new socket object
    [sock], with the identifier [generateId()] returned and the client
    address computed from the request. *)
Definition on_connection (sock : nat) (uid addr : string) (st : State)
  : State * list Effect :=
  let st1 :=
    set_clients (clients st ++ [sock])
      (set_sockets (<[sock := mkSocket uid addr OPEN false]> (sockets st)) st) in
  if includes_val (bans_userIds st1) (JStr uid) || includes_val (bans_ips st1) (JStr addr)
  then (close sock st1, [Send sock (banned "You are banned."); Close sock])
  else
    (set_sockets (<[sock := mkSocket uid addr OPEN true]> (sockets st1)) st1,
     [Send sock (connected uid)]).

(** ** Events and runs *)

(** What the transport, the clock and the file watcher deliver to the
    script.  [PeerClosing] is the transport taking a socket out of [OPEN]
    (close frame received, connection lost) ahead of the ['close'] event. *)
Inductive Event :=
| Connection (sock : nat) (uid addr : string)
| Message (sock : nat) (parsed : option json) (now : string)
| TransportClose (sock : nat)
| TransportError (sock : nat)
| PeerClosing (sock : nat)
| BadWordsChanged (data : json).

Definition is_CLOSED (r : ReadyState) : bool :=
  match r with CLOSED => true | _ => false end.

(** Identifiers come from [generateId] and are taken never to repeat: a
    [Connection] event whose socket reference or identifier is already in
    the heap is not an event of the system and is skipped.  Listeners run
    only on sockets that registered them and whose ['close'] event has not
    been emitted yet. *)
Definition uid_in_use (uid : string) (st : State) : bool :=
  bool_decide (map_Exists (fun _ k => userId k = uid) (sockets st)).

Definition step (ev : Event) (st : State) : State * list Effect :=
  match ev with
  | Connection sock uid addr =>
      match sockets st !! sock with
      | Some _ => (st, [])
      | None => if uid_in_use uid st then (st, []) else on_connection sock uid addr st
      end
  | Message sock parsed now =>
      match sockets st !! sock with
      | Some k =>
          if listening k && negb (is_CLOSED (readyState k))
          then on_message (userId k) sock parsed now st
          else (st, [])
      | None => (st, [])
      end
  | TransportClose sock =>
      match sockets st !! sock with
      | Some k =>
          if is_CLOSED (readyState k) then (st, [])
          else
            let st1 :=
              set_clients (List.filter (fun s => negb (Nat.eqb s sock)) (clients st))
                          (set_readyState sock CLOSED st) in
            if listening k then handleDisconnection (userId k) st1 else (st1, [])
      | None => (st, [])
      end
  | TransportError sock =>
      match sockets st !! sock with
      | Some k =>
          if listening k && negb (is_CLOSED (readyState k))
          then handleDisconnection (userId k) (close sock st)
          else (st, [])
      | None => (st, [])
      end
  | PeerClosing sock => (close sock st, [])
  | BadWordsChanged data =>
      match loadBadWordsSet data with
      | Some bad => (set_BAD_WORDS bad st, [])
      | None => (st, [])
      end
  end.

Fixpoint run (evs : list Event) (st : State) : State * list Effect :=
  match evs with
  | [] => (st, [])
  | ev :: rest =>
      let '(st1, out1) := step ev st in
      let '(st2, out2) := run rest st1 in
      (st2, out1 ++ out2)
  end.

(** The state right after the script was loaded. *)
Definition start (bad : list string) (log ips userIds : list json) (key : option string)
  : State :=
  mkState bad log ips userIds None ∅ ∅ [] key.

(** ** The invariants of the specification *)

(** The pair table is symmetric: the partner of every entry has an entry
    that points back. *)
Definition symmetric (st : State) : Prop :=
  ∀ a ca, activeConnections st !! a = Some ca →
    ∃ cb, activeConnections st !! partnerId ca = Some cb ∧ partnerId cb = a.

(** ** Vocabulary of the properties *)

(** A parsed envelope of the given [type]. *)
Definition envelope (type : string) (rest : list (string * json)) : option json :=
  Some (JObj (("type", JStr type) :: rest)).

(** The words of the set are kept in lower case by the loader. *)
Definition lowercase (bad : list string) : Prop :=
  Forall (fun w => toLowerCase w = w) bad.

(** The text contains the word, letter case aside. *)
Definition ci_contains (text w : string) : Prop :=
  ∃ a b, toLowerCase text = a +:+ toLowerCase w +:+ b.

(** The five admin kinds. *)
Definition admin_kinds : list string :=
  ["get_user_count"; "get_reports"; "get_bans"; "ban_user"; "unban_user"].

(** A log of 1000 earlier reports, numbered from the most recent (0) to
    the oldest (999). *)
Definition thousand_reports : list json :=
  map (fun i => JObj [("reporterId", JStr "R"); ("message", JNum (Z.of_nat i))])
      (seq 0 1000).

(** The executable form of [symmetric]. *)
Definition symmetric_b (st : State) : bool :=
  forallb (fun e : string * Conn =>
             match activeConnections st !! partnerId e.2 with
             | Some cb => String.eqb (partnerId cb) e.1
             | None => false
             end)
          (map_to_list (activeConnections st)).

(** The occupant of the waiting slot has no entry in the pair table. *)
Definition slot_unpaired (st : State) : Prop :=
  ∀ w sw, waitingUser st = Some (w, sw) → activeConnections st !! w = None.

(** The sibling version of the script (the one that also accepts [leave])
    deletes the partner's entry outside the open-socket test. *)
Definition disconnectPair_sibling (uid : string) (st : State) : State * list Effect :=
  match activeConnections st !! uid with
  | Some conn =>
      if negb (String.eqb (partnerId conn) "") then
        let out :=
          match activeConnections st !! partnerId conn with
          | Some partnerConn =>
              if is_OPEN (readyState_of st (socket partnerConn))
              then [Send (socket partnerConn) partner_disconnected] else []
          | None => []
          end in
        (set_activeConnections
           (delete uid (delete (partnerId conn) (activeConnections st))) st, out)
      else (clear_waiting uid st, [])
  | None => (clear_waiting uid st, [])
  end.

(** ** The client address *)

(** The ASCII white space removed by [trim]: tab, line feed, vertical tab,
    form feed, carriage return and space. *)
Definition is_space (c : ascii) : bool :=
  let n := N_of_ascii c in
  (((9 <=? n) && (n <=? 13)) || (n =? 32))%N.

(** [s.split(',')[0]] *)
Fixpoint first_field (s : string) : string :=
  match s with
  | EmptyString => EmptyString
  | String c r => if Ascii.eqb c "," then EmptyString else String c (first_field r)
  end.

Fixpoint trimStart (s : string) : string :=
  match s with
  | EmptyString => EmptyString
  | String c r => if is_space c then trimStart r else s
  end.

Fixpoint trimEnd (s : string) : string :=
  match s with
  | EmptyString => EmptyString
  | String c r =>
      match trimEnd r with
      | EmptyString => if is_space c then EmptyString else String c EmptyString
      | r' => String c r'
      end
  end.

Definition trim (s : string) : string := trimEnd (trimStart s).

(** [(req.headers['x-forwarded-for'] || req.socket.remoteAddress || '')
    .split(',')[0].trim()] *)
Definition clientIp (forwarded remote : option string) : string :=
  let pick (v : option string) (otherwise : string) : string :=
    match v with
    | Some x => if String.eqb x "" then otherwise else x
    | None => otherwise
    end in
  trim (first_field (pick forwarded (pick remote ""))).

(** ** The heartbeat *)

(** The [isAlive] property of the socket objects, kept beside the heap: a
    socket without an entry never had the property set (a connection
    turned away as banned). *)
Inductive Probe :=
| Terminate (s : nat)
| Ping (s : nat).

(** [if (s.isAlive === false) return s.terminate(); s.isAlive = false; s.ping();] *)
Definition heartbeat_one (s : nat) (alive : gmap nat bool) : gmap nat bool * list Probe :=
  match alive !! s with
  | Some false => (alive, [Terminate s])
  | _ => (<[s := false]> alive, [Ping s])
  end.

(** One tick of the interval: [wss.clients.forEach(...)]. *)
Fixpoint heartbeat (cl : list nat) (alive : gmap nat bool) : gmap nat bool * list Probe :=
  match cl with
  | [] => (alive, [])
  | s :: rest =>
      let '(alive1, out1) := heartbeat_one s alive in
      let '(alive2, out2) := heartbeat rest alive1 in
      (alive2, out1 ++ out2)
  end.

(** [socket.on('pong', () => { socket.isAlive = true; })], and the
    [socket.isAlive = true] of an accepted connection. *)
Definition pong (s : nat) (alive : gmap nat bool) : gmap nat bool := <[s := true]> alive.

(** ** Consistency of the registries *)

(** The socket [s] is the one of the connection that was given the
    identity [uid] and registered its listeners. *)
Definition owns (st : State) (uid : string) (s : nat) : Prop :=
  ∃ k, sockets st !! s = Some k ∧ userId k = uid ∧ listening k = true.

(** What a socket object keeps for life, and whether it is closed. *)
Definition tag (k : Socket) : string * string * bool * bool :=
  (userId k, ip k, listening k, is_CLOSED (readyState k)).

Definition same_tags (m m' : gmap nat Socket) : Prop :=
  ∀ s, tag <$> m' !! s = tag <$> m !! s.

Record consistent (st : State) : Prop := mkConsistent {
  slot_free : slot_unpaired st;
  slot_owner : ∀ w sw, waitingUser st = Some (w, sw) → owns st w sw;
  entry_owner : ∀ a c, activeConnections st !! a = Some c → owns st a (socket c);
  no_self : ∀ a c, activeConnections st !! a = Some c → partnerId c ≠ a;
  ids_unique : ∀ s s' k k', sockets st !! s = Some k → sockets st !! s' = Some k' →
                            userId k = userId k' → s = s';
  clients_NoDup : NoDup (clients st);
  clients_live : ∀ s, s ∈ clients st ↔
                      ∃ k, sockets st !! s = Some k ∧ readyState k ≠ CLOSED
}.

(** ASCII text: every character is below 128.  On such text the model's
    [toLowerCase] is the JavaScript one. *)
Fixpoint is_ascii (s : string) : bool :=
  match s with
  | EmptyString => true
  | String c r => (N_of_ascii c <? 128)%N && is_ascii r
  end.

(** An array of ASCII strings. *)
Definition ascii_strings (words : list json) : Prop :=
  ∀ raw, raw ∈ words → ∃ r, raw = JStr r ∧ is_ascii r = true.

(** The value is the string [u]. *)
Definition is_str (u : string) (x : json) : bool :=
  match x with
  | JStr y => String.eqb y u
  | _ => false
  end.

(** The [readyState] that [close()] leaves. *)
Definition closing (r : ReadyState) : ReadyState :=
  match r with
  | OPEN | CONNECTING => CLOSING
  | CLOSING | CLOSED => r
  end.

(** The socket [s] is open and its client address is [a]. *)
Definition open_at (a : string) (st : State) (s : nat) : bool :=
  match sockets st !! s with
  | Some k => String.eqb (ip k) a && is_OPEN (readyState k)
  | None => false
  end.

(** The entry under which [ban_user] finds the identity it is given, the
    socket of that entry, and the clients its address sweep reaches: those
    open at the address, the socket just closed for the identity apart. *)
Definition ban_target (st : State) (ou : option string) : option Conn :=
  match ou with
  | Some u => activeConnections st !! u
  | None => None
  end.

Definition is_target (t : option Conn) (s : nat) : bool :=
  match t with
  | Some c => Nat.eqb s (socket c)
  | None => false
  end.

Definition swept (st : State) (oa : option string) (t : option Conn) (s : nat) : bool :=
  match oa with
  | Some a => open_at a st s && negb (is_target t s)
  | None => false
  end.

(** The [type] strings that the [switch] knows. *)
Definition known_types : list string := map fst kinds.

(** * Properties *)

(** ** Matchmaking *)

Lemma findPartner_paired uid sock st c :
  activeConnections st !! uid = Some c → findPartner uid sock st = (st, []).
Proof. intros H. unfold findPartner. by rewrite H. Qed.

Lemma findPartner_empty_slot uid sock st :
  activeConnections st !! uid = None →
  waitingUser st = None →
  findPartner uid sock st = (set_waitingUser (Some (uid, sock)) st, [Send sock searching]).
Proof. intros H1 H2. unfold findPartner. by rewrite H1, H2. Qed.

Lemma findPartner_own_slot uid sock s' st :
  activeConnections st !! uid = None →
  waitingUser st = Some (uid, s') →
  findPartner uid sock st = (set_waitingUser (Some (uid, sock)) st, [Send sock searching]).
Proof.
  intros H1 H2. unfold findPartner. rewrite H1, H2.
  by rewrite String.eqb_refl.
Qed.

Lemma findPartner_stale uid sock w sw st :
  activeConnections st !! uid = None →
  waitingUser st = Some (w, sw) →
  w ≠ uid →
  readyState_of st sw ≠ OPEN →
  findPartner uid sock st = (set_waitingUser (Some (uid, sock)) st, [Send sock searching]).
Proof.
  intros H1 H2 Hne Hr. unfold findPartner. rewrite H1, H2.
  apply String.eqb_neq in Hne. rewrite Hne. simpl.
  destruct (readyState_of st sw); simpl; congruence.
Qed.

Lemma findPartner_match uid sock w sw st :
  activeConnections st !! uid = None →
  waitingUser st = Some (w, sw) →
  w ≠ uid →
  readyState_of st sw = OPEN →
  findPartner uid sock st =
    (set_waitingUser None
       (set_activeConnections
          (<[w := mkConn sw uid]> (<[uid := mkConn sock w]> (activeConnections st))) st),
     [Send sock (partner_found w); Send sw (partner_found uid)]).
Proof.
  intros H1 H2 Hne Hr. unfold findPartner. rewrite H1, H2.
  apply String.eqb_neq in Hne. rewrite Hne. simpl.
  by rewrite Hr.
Qed.

(** Reading the listener of an open connection off [step]. *)
Lemma step_message sock k parsed now st :
  sockets st !! sock = Some k →
  listening k = true →
  readyState k ≠ CLOSED →
  step (Message sock parsed now) st = on_message (userId k) sock parsed now st.
Proof.
  intros Hs Hl Hr. simpl. rewrite Hs, Hl.
  destruct (readyState k); simpl; congruence.
Qed.

Lemma on_message_find_partner uid sock now st :
  on_message uid sock (envelope "find_partner" []) now st = findPartner uid sock st.
Proof. reflexivity. Qed.

(** C3. From a state whose waiting slot is empty, two distinct unpaired
    clients A and B (A's transport open) issue [find_partner] one after the
    other: A is sent exactly [searching]; then B and A are each sent
    [partner_found] with the other's identity, a payload with no [from]
    property; afterwards the table pairs A with B and B with A and the
    waiting slot is empty. *)
Theorem C3_two_clients_are_paired (st : State) (A B ipA ipB now : string)
    (sa sb : nat) (rb : ReadyState) :
  waitingUser st = None →
  A ≠ B →
  activeConnections st !! A = None →
  activeConnections st !! B = None →
  sockets st !! sa = Some (mkSocket A ipA OPEN true) →
  sockets st !! sb = Some (mkSocket B ipB rb true) →
  rb ≠ CLOSED →
  ∃ st1 st2,
    step (Message sa (envelope "find_partner" []) now) st = (st1, [Send sa searching]) ∧
    step (Message sb (envelope "find_partner" []) now) st1 =
      (st2, [Send sb (partner_found A); Send sa (partner_found B)]) ∧
    prop (partner_found A) "partnerId" = Some (JStr A) ∧
    prop (partner_found B) "partnerId" = Some (JStr B) ∧
    prop (partner_found A) "from" = None ∧
    prop (partner_found B) "from" = None ∧
    activeConnections st2 !! A = Some (mkConn sa B) ∧
    activeConnections st2 !! B = Some (mkConn sb A) ∧
    waitingUser st2 = None.
Proof.
  intros Hw Hne HA HB Hsa Hsb Hrb.
  eexists _, _. split; [|split].
  - rewrite (step_message _ _ _ _ _ Hsa); [|done|done].
    rewrite on_message_find_partner. simpl userId.
    by apply findPartner_empty_slot.
  - rewrite (step_message sb (mkSocket B ipB rb true)); [|done|done|done].
    rewrite on_message_find_partner. simpl userId.
    apply findPartner_match; [done|done|done|].
    unfold readyState_of. simpl. by rewrite Hsa.
  - simpl. repeat split.
    + rewrite lookup_insert_eq. done.
    + rewrite lookup_insert_ne by done. by rewrite lookup_insert_eq.
Qed.

Lemma C3_two_clients_are_paired_witness :
  let st := fst (run [Connection 1 "A" "10.0.0.1"; Connection 2 "B" "10.0.0.2"]
                     (start [] [] [] [] None)) in
  ∃ st1 st2,
    step (Message 1 (envelope "find_partner" []) "t") st = (st1, [Send 1%nat searching]) ∧
    step (Message 2 (envelope "find_partner" []) "t") st1 =
      (st2, [Send 2%nat (partner_found "A"); Send 1%nat (partner_found "B")]) ∧
    prop (partner_found "A") "partnerId" = Some (JStr "A") ∧
    prop (partner_found "B") "partnerId" = Some (JStr "B") ∧
    prop (partner_found "A") "from" = None ∧
    prop (partner_found "B") "from" = None ∧
    activeConnections st2 !! "A" = Some (mkConn 1 "B") ∧
    activeConnections st2 !! "B" = Some (mkConn 2 "A") ∧
    waitingUser st2 = None.
Proof.
  apply (C3_two_clients_are_paired _ "A" "B" "10.0.0.1" "10.0.0.2" "t" 1%nat 2%nat OPEN);
    try (vm_compute; congruence); try reflexivity.
Defined.

(** C8. The waiting slot holds an identity whose transport is no longer
    open; a different, unpaired identity issues [find_partner].  The
    requester takes the slot over, is sent [searching] and nothing else,
    and the pair table is left as it was: no [partner_found], no entry. *)
Theorem C8_stale_occupant_is_displaced (st : State) (W B ipB now : string)
    (sw sb : nat) (rb : ReadyState) :
  waitingUser st = Some (W, sw) →
  readyState_of st sw ≠ OPEN →
  W ≠ B →
  activeConnections st !! B = None →
  sockets st !! sb = Some (mkSocket B ipB rb true) →
  rb ≠ CLOSED →
  ∃ st1,
    step (Message sb (envelope "find_partner" []) now) st = (st1, [Send sb searching]) ∧
    waitingUser st1 = Some (B, sb) ∧
    activeConnections st1 = activeConnections st.
Proof.
  intros Hw Hr Hne HB Hsb Hrb.
  exists (set_waitingUser (Some (B, sb)) st). split; [|done].
  rewrite (step_message sb (mkSocket B ipB rb true)); [|done|done|done].
  rewrite on_message_find_partner. simpl userId.
  by apply (findPartner_stale B sb W sw).
Qed.

Lemma C8_stale_occupant_is_displaced_witness :
  let st := fst (run [Connection 1 "W" "10.0.0.1"; Connection 2 "B" "10.0.0.2";
                      Message 1 (envelope "find_partner" []) "t"; PeerClosing 1]
                     (start [] [] [] [] None)) in
  ∃ st1,
    step (Message 2 (envelope "find_partner" []) "t") st = (st1, [Send 2%nat searching]) ∧
    waitingUser st1 = Some ("B", 2%nat) ∧
    activeConnections st1 = activeConnections st.
Proof.
  apply (C8_stale_occupant_is_displaced _ "W" "B" "10.0.0.2" "t" 1%nat 2%nat OPEN);
    try (vm_compute; congruence); try reflexivity.
Defined.

(** C4, as amended.  For an identity that is already paired [find_partner]
    changes nothing and sends nothing.  For the identity that already
    occupies the waiting slot (with the socket it asked from) the state is
    unchanged as well, but [searching] is sent to it once more. *)
Theorem C4_repeated_find_partner (st : State) (uid : string) (sock : nat) :
  (is_Some (activeConnections st !! uid) → findPartner uid sock st = (st, [])) ∧
  (activeConnections st !! uid = None → waitingUser st = Some (uid, sock) →
   findPartner uid sock st = (st, [Send sock searching])).
Proof.
  split.
  - intros [c Hc]. by apply (findPartner_paired _ _ _ c).
  - intros Hn Hw. rewrite (findPartner_own_slot uid sock sock) by done.
    f_equal. destruct st. simpl in *. by rewrite Hw.
Qed.

Lemma C4_repeated_find_partner_witness :
  let paired := fst (run [Connection 1 "A" "10.0.0.1"; Connection 2 "B" "10.0.0.2";
                          Message 1 (envelope "find_partner" []) "t";
                          Message 2 (envelope "find_partner" []) "t"]
                         (start [] [] [] [] None)) in
  let waiting := fst (run [Connection 1 "A" "10.0.0.1";
                           Message 1 (envelope "find_partner" []) "t"]
                          (start [] [] [] [] None)) in
  findPartner "A" 1 paired = (paired, []) ∧
  findPartner "A" 1 waiting = (waiting, [Send 1%nat searching]).
Proof.
  split.
  - apply (C4_repeated_find_partner _ "A" 1%nat). vm_compute. eauto.
  - apply (C4_repeated_find_partner _ "A" 1%nat); reflexivity.
Defined.

(** C4 as stated fails for the occupant of the waiting slot: its repeated
    [find_partner] is answered with a second [searching]. *)
Lemma C4_counterexample :
  let st := fst (run [Connection 1 "A" "10.0.0.1";
                      Message 1 (envelope "find_partner" []) "t"]
                     (start [] [] [] [] None)) in
  waitingUser st = Some ("A", 1%nat) ∧
  snd (step (Message 1 (envelope "find_partner" []) "t") st) = [Send 1%nat searching] ∧
  snd (step (Message 1 (envelope "find_partner" []) "t") st) ≠ [].
Proof. vm_compute. repeat split. congruence. Qed.

(** ** Relay *)

Lemma partner_target_None (st : State) (uid : string) :
  partner_target uid st = None ↔
  (activeConnections st !! uid = None ∨
   ∃ c, activeConnections st !! uid = Some c ∧
        (partnerId c = "" ∨
         activeConnections st !! partnerId c = None ∨
         ∃ pc, activeConnections st !! partnerId c = Some pc ∧
               readyState_of st (socket pc) ≠ OPEN)).
Proof.
  unfold partner_target.
  destruct (activeConnections st !! uid) as [c|] eqn:Hc; [|by intuition].
  destruct (String.eqb_spec (partnerId c) "") as [He|He].
  { split; [|done]. intros _. right. exists c. auto. }
  destruct (activeConnections st !! partnerId c) as [pc|] eqn:Hp.
  - assert (Hright : readyState_of st (socket pc) ≠ OPEN →
              ∃ c0, Some c = Some c0 ∧
                (partnerId c0 = "" ∨ activeConnections st !! partnerId c0 = None ∨
                 ∃ pc0, activeConnections st !! partnerId c0 = Some pc0 ∧
                        readyState_of st (socket pc0) ≠ OPEN)).
    { intros Hr. exists c. split; [done|]. right. right. exists pc. by rewrite Hp. }
    destruct (readyState_of st (socket pc)) eqn:Hr; simpl; split;
      try (intros _; right; apply Hright; congruence); try done.
    intros [H|(c' & H1 & [H2|[H2|(pc' & H3 & H4)]])]; simplify_eq.
  - split; [|done]. intros _. right. exists c. auto.
Qed.

(** C9. An identity with no entry in the pair table, with an entry that
    names no partner, whose partner has no entry, or whose partner's
    transport is not open: relaying text, a typing flag or a signaling
    payload returns normally, sends nothing and leaves the state alone. *)
Theorem C9_relay_without_open_partner (st : State) (uid : string)
    (text : json) (isTyping : option json) (signal : list (string * json)) :
  (activeConnections st !! uid = None ∨
   ∃ c, activeConnections st !! uid = Some c ∧
        (partnerId c = "" ∨
         activeConnections st !! partnerId c = None ∨
         ∃ pc, activeConnections st !! partnerId c = Some pc ∧
               readyState_of st (socket pc) ≠ OPEN)) →
  sendToPartner uid text st = (st, []) ∧
  notifyTyping uid isTyping st = (st, []) ∧
  forwardToPartner uid signal st = (st, []).
Proof.
  intros H. apply partner_target_None in H.
  unfold sendToPartner, notifyTyping, forwardToPartner. by rewrite H.
Qed.

Lemma C9_relay_without_open_partner_witness :
  let st := fst (run [Connection 1 "A" "10.0.0.1"; Connection 2 "B" "10.0.0.2";
                      Message 1 (envelope "find_partner" []) "t";
                      Message 2 (envelope "find_partner" []) "t"; PeerClosing 2]
                     (start [] [] [] [] None)) in
  (sendToPartner "C" (JStr "hi") st = (st, []) ∧
   notifyTyping "C" (Some (JBool true)) st = (st, []) ∧
   forwardToPartner "C" [("type", JStr "video_offer")] st = (st, [])) ∧
  (sendToPartner "A" (JStr "hi") st = (st, []) ∧
   notifyTyping "A" (Some (JBool true)) st = (st, []) ∧
   forwardToPartner "A" [("type", JStr "video_offer")] st = (st, [])).
Proof.
  split.
  - apply C9_relay_without_open_partner. left. reflexivity.
  - apply C9_relay_without_open_partner. right.
    exists (mkConn 1 "B"). split; [reflexivity|]. right. right.
    exists (mkConn 2 "A"). split; [reflexivity|]. vm_compute. congruence.
Defined.

(** ** Moderation *)

Lemma startsWith_spec (w s : string) :
  startsWith s w = true ↔ ∃ b, s = w +:+ b.
Proof.
  revert s. induction w as [|a w IH]; intros s; simpl.
  - split; [intros _; by exists s|done].
  - destruct s as [|b s]; simpl.
    + split; [done|]. intros [? ?]. discriminate.
    + rewrite andb_true_iff, IH. split.
      * intros [Hab [r ->]]. apply Ascii.eqb_eq in Hab. subst. by exists r.
      * intros [r Hr]. injection Hr as -> ->. split; [apply Ascii.eqb_refl|by exists r].
Qed.

Lemma includes_spec (s w : string) :
  includes s w = true ↔ ∃ a b, s = a +:+ w +:+ b.
Proof.
  split.
  - induction s as [|c s IH]; simpl; rewrite orb_true_iff.
    + intros [H|H]; [|done]. apply startsWith_spec in H as [b ->]. by exists "", b.
    + intros [H|H].
      * apply startsWith_spec in H as [b Hb]. by exists "", b.
      * destruct (IH H) as (a & b & ->). by exists (String c a), b.
  - intros (a & b & ->). induction a as [|c a IH]; simpl.
    + assert (H : startsWith (w +:+ b) w = true) by (apply startsWith_spec; eauto).
      destruct (w +:+ b); simpl in *; rewrite H; done.
    + rewrite IH. apply orb_true_r.
Qed.

Lemma lower_ascii_idemp (c : ascii) : lower_ascii (lower_ascii c) = lower_ascii c.
Proof. by destruct c as [[] [] [] [] [] [] [] []]. Qed.

Lemma toLowerCase_idemp (s : string) : toLowerCase (toLowerCase s) = toLowerCase s.
Proof. induction s; simpl; [done|]. by rewrite lower_ascii_idemp, IHs. Qed.

Lemma Set_of_lowercase (seen l : list string) :
  lowercase l → lowercase (Set_of seen l).
Proof.
  unfold lowercase. revert seen. induction l as [|w l IH]; intros seen H; simpl; [done|].
  inversion H; subst. destruct (existsb _ seen); [by apply IH|].
  constructor; [done|by apply IH].
Qed.

Lemma loadBadWordsSet_lowercase (data : json) (bad : list string) :
  loadBadWordsSet data = Some bad → lowercase bad.
Proof.
  unfold loadBadWordsSet. intros H.
  assert (Hl : ∀ words, lowercase (Set_of [] (map (λ w, toLowerCase (to_String w)) words))).
  { intros words. apply Set_of_lowercase. unfold lowercase.
    apply Forall_map, Forall_forall. intros x _. apply toLowerCase_idemp. }
  destruct data; try discriminate;
    destruct (prop _ "words") as [[]|]; simplify_eq; try by constructor.
  all: apply Hl.
Qed.

Lemma containsBadWord_hit (bad : list string) (t w : string) :
  lowercase bad → w ∈ bad → w ≠ "" → ci_contains t w →
  containsBadWord bad (Some (JStr t)) = true.
Proof.
  intros Hl Hw Hne Hc. unfold containsBadWord.
  assert (Hw' : toLowerCase w = w).
  { unfold lowercase in Hl. rewrite Forall_forall in Hl. by apply Hl. }
  assert (Ht : t ≠ "").
  { intros ->. destruct Hc as (a & b & Hab). rewrite Hw' in Hab.
    destruct a; [destruct w|]; cbv in Hab; congruence. }
  simpl. apply String.eqb_neq in Ht. rewrite Ht. simpl.
  apply existsb_exists. exists w. split; [by apply list_elem_of_In|].
  apply String.eqb_neq in Hne. rewrite Hne. simpl.
  apply includes_spec. destruct Hc as (a & b & Hab). rewrite Hw' in Hab. by exists a, b.
Qed.

Lemma unshift_capped_cons (cap : nat) (entry : json) (log : list json) :
  (0 < cap)%nat →
  unshift_capped cap entry log =
    entry :: (if (cap <=? List.length log)%nat then removelast log else log).
Proof.
  intros Hcap. unfold unshift_capped. simpl List.length.
  destruct (Nat.ltb_spec cap (S (List.length log))) as [H|H].
  - destruct (Nat.leb_spec cap (List.length log)) as [H'|H']; [|lia].
    destruct log; simpl in *; [lia|done].
  - destruct (Nat.leb_spec cap (List.length log)) as [H'|H']; [lia|done].
Qed.

(** C2, as amended.  The text of a [send_message] envelope contains, letter
    case aside, a non-empty word of the blocked-word set.  Then the only
    effects are one [warning] sent to the sender and the saving of the
    report log (nothing is sent to a partner), and the log gains exactly
    one entry at its front, which names the sender, the sender's current
    partner (or [null]) and the offending text. *)
Theorem C2_blocked_text_is_not_relayed (st : State) (uid : string) (sock : nat)
    (msg : json) (t w now : string) :
  lowercase (BAD_WORDS st) →
  prop msg "type" = Some (JStr "send_message") →
  prop msg "text" = Some (JStr t) →
  w ∈ BAD_WORDS st → w ≠ "" → ci_contains t w →
  ∃ rpt kept,
    on_message uid sock (Some msg) now st =
      (set_reports (rpt :: kept) st, [Send sock warning; SaveReports (rpt :: kept)]) ∧
    (kept = reports st ∨ kept = removelast (reports st)) ∧
    prop rpt "reporterId" = Some (JStr uid) ∧
    prop rpt "reportedId" =
      Some (match activeConnections st !! uid with
            | Some c => if String.eqb (partnerId c) "" then JNull else JStr (partnerId c)
            | None => JNull
            end) ∧
    prop rpt "message" = Some (JStr t).
Proof.
  intros Hl Hty Htx Hw Hne Hc.
  pose proof (containsBadWord_hit _ _ _ Hl Hw Hne Hc) as Hbad.
  assert (Ht : truthy (Some (JStr t)) = true).
  { unfold containsBadWord in Hbad. by destruct (truthy (Some (JStr t))). }
  exists (auto_report uid (JStr t) now st),
         (if (1000 <=? List.length (reports st))%nat
          then removelast (reports st) else reports st).
  split; [|split; [|split; [|split]]].
  - destruct msg; try discriminate. unfold on_message, dispatch.
    rewrite Hty, Htx. change (kind_of (Some (JStr "send_message"))) with send_message.
    cbv beta iota. rewrite Ht, Hbad. simpl negb. cbv iota.
    by rewrite unshift_capped_cons by lia.
  - destruct (1000 <=? _)%nat; auto.
  - reflexivity.
  - unfold auto_report. destruct (activeConnections st !! uid) as [c|]; [|done].
    simpl. destruct (String.eqb (partnerId c) ""); done.
  - reflexivity.
Qed.

Lemma C2_blocked_text_is_not_relayed_witness :
  let st := fst (run [BadWordsChanged (JObj [("words", JArr [JStr "Bad"])]);
                      Connection 1 "A" "10.0.0.1"; Connection 2 "B" "10.0.0.2";
                      Message 1 (envelope "find_partner" []) "t0";
                      Message 2 (envelope "find_partner" []) "t0"]
                     (start [] [] [] [] None)) in
  ∃ rpt kept,
    on_message "A" 1 (envelope "send_message" [("text", JStr "so BAD")]) "t1" st =
      (set_reports (rpt :: kept) st, [Send 1%nat warning; SaveReports (rpt :: kept)]) ∧
    (kept = reports st ∨ kept = removelast (reports st)) ∧
    prop rpt "reporterId" = Some (JStr "A") ∧
    prop rpt "reportedId" =
      Some (match activeConnections st !! "A" with
            | Some c => if String.eqb (partnerId c) "" then JNull else JStr (partnerId c)
            | None => JNull
            end) ∧
    prop rpt "message" = Some (JStr "so BAD").
Proof.
  apply (C2_blocked_text_is_not_relayed _ "A" 1%nat _ "so BAD" "bad" "t1").
  - vm_compute. by repeat constructor.
  - reflexivity.
  - reflexivity.
  - vm_compute. apply list_elem_of_here.
  - congruence.
  - by exists "so ", "".
Defined.

(** C2 as stated fails when the blocked-word set holds the empty string:
    every text contains it, yet the filter skips empty words and the text
    is relayed to the partner, with no warning and no report. *)
Lemma C2_counterexample :
  let st := fst (run [BadWordsChanged (JObj [("words", JArr [JStr ""])]);
                      Connection 1 "A" "10.0.0.1"; Connection 2 "B" "10.0.0.2";
                      Message 1 (envelope "find_partner" []) "t0";
                      Message 2 (envelope "find_partner" []) "t0"]
                     (start [] [] [] [] None)) in
  "" ∈ BAD_WORDS st ∧ ci_contains "hello" "" ∧
  step (Message 1 (envelope "send_message" [("text", JStr "hello")]) "t1") st =
    (st, [Send 2%nat (note "message" [("text", JStr "hello")])]).
Proof.
  split; [|split].
  - vm_compute. apply list_elem_of_here.
  - by exists "", "hello".
  - vm_compute. reflexivity.
Qed.

(** ** The report log *)

Lemma unshift_capped_length (cap : nat) (entry : json) (log : list json) :
  (0 < cap)%nat → (List.length log ≤ cap)%nat →
  (List.length (unshift_capped cap entry log) ≤ cap)%nat.
Proof.
  intros Hcap Hlen. rewrite unshift_capped_cons by done. simpl.
  destruct (Nat.leb_spec cap (List.length log)) as [H|H]; [|lia].
  assert (Hlog : log ≠ []) by (intros ->; simpl in *; lia).
  rewrite (app_removelast_last entry Hlog) in Hlen.
  rewrite length_app in Hlen. simpl in Hlen. lia.
Qed.

(** A [report_user] envelope puts its entry at the front of the log, takes
    the oldest entry off the tail exactly when the log would otherwise hold
    more than 5000 entries, and keeps a log of at most 5000 entries within
    that bound. *)
Lemma report_user_respects_cap (st : State) (uid : string) (sock : nat)
    (msg : json) (now : string) :
  prop msg "type" = Some (JStr "report_user") →
  let st' := fst (on_message uid sock (Some msg) now st) in
  reports st' =
    user_report uid msg now ::
      (if (5000 <=? List.length (reports st))%nat
       then removelast (reports st) else reports st) ∧
  ((List.length (reports st) ≤ 5000)%nat → (List.length (reports st') ≤ 5000)%nat).
Proof.
  intros Hty. destruct msg; try discriminate.
  unfold on_message, dispatch. rewrite Hty.
  change (kind_of (Some (JStr "report_user"))) with report_user.
  cbv beta iota zeta. simpl fst. simpl reports. split.
  - by rewrite unshift_capped_cons by lia.
  - intros H. apply unshift_capped_length; [lia|done].
Qed.

(** C5, evaluated where the code departs from it.  The log holds 1000
    entries.  A bad-word message makes the moderation path put its report
    in front and drop the oldest entry, although the log then held 1001
    entries, far from 5000; on the same log a [report_user] envelope keeps
    all 1001. *)
Theorem C5_auto_report_evicts_at_1000 :
  let st := fst (run [Connection 1 "A" "10.0.0.1"]
                     (start ["bad"] thousand_reports [] [] None)) in
  let auto := fst (step (Message 1 (envelope "send_message" [("text", JStr "bad")]) "t") st) in
  let user := fst (step (Message 1 (envelope "report_user" []) "t") st) in
  List.length (reports st) = 1000%nat ∧
  reports auto = auto_report "A" (JStr "bad") "t" st :: removelast (reports st) ∧
  List.length (reports auto) = 1000%nat ∧
  reports user = user_report "A" (JObj [("type", JStr "report_user")]) "t" :: reports st ∧
  List.length (reports user) = 1001%nat.
Proof. vm_compute. repeat split. Qed.

(** ** Admin envelopes *)

(** Evaluates the [switch] on a literal [type]. *)
Ltac switch_on_type :=
  match goal with
  | |- context [kind_of ?t] =>
      let k := eval vm_compute in (kind_of t) in
      change (kind_of t) with k; cbv beta iota
  end.

Lemma admin_kind_cases (kind : string) :
  kind ∈ admin_kinds →
  kind = "get_user_count" ∨ kind = "get_reports" ∨ kind = "get_bans" ∨
  kind = "ban_user" ∨ kind = "unban_user".
Proof. unfold admin_kinds. rewrite !elem_of_cons, elem_of_nil. tauto. Qed.

Lemma authorized_false (key : option json) (secret : option string) :
  (secret = None → key ≠ None) →
  (∀ k, secret = Some k → key ≠ Some (JStr k)) →
  authorized key secret = false.
Proof.
  intros Hnone Hsome. destruct secret as [k|].
  - specialize (Hsome k eq_refl). destruct key as [[]|]; simpl; try done.
    apply String.eqb_neq. congruence.
  - specialize (Hnone eq_refl). by destruct key as [[]|].
Qed.

(** C6, as amended.  For each admin kind, an envelope whose [adminKey] is
    missing or is not the configured secret is answered with nothing and
    changes nothing (ban lists, report log, pair table, waiting slot and
    sockets are as before), the one case apart where no secret is
    configured and the envelope has no [adminKey]. *)
Theorem C6_unauthorized_admin_is_ignored (st : State) (uid : string) (sock : nat)
    (msg : json) (now kind : string) :
  kind ∈ admin_kinds →
  prop msg "type" = Some (JStr kind) →
  (ADMIN_KEY st = None → prop msg "adminKey" ≠ None) →
  (∀ secret, ADMIN_KEY st = Some secret → prop msg "adminKey" ≠ Some (JStr secret)) →
  on_message uid sock (Some msg) now st = (st, []).
Proof.
  intros Hk Hty Hnone Hsome.
  pose proof (authorized_false _ _ Hnone Hsome) as Hkey.
  destruct msg; try discriminate. unfold on_message, dispatch. rewrite Hty.
  apply admin_kind_cases in Hk as [-> | [-> | [-> | [-> | ->]]]];
    switch_on_type; unfold admin_gate; by rewrite Hkey.
Qed.

Lemma C6_unauthorized_admin_is_ignored_witness :
  let st := fst (run [Connection 1 "A" "10.0.0.1"]
                     (start [] [] [] [] (Some "s3cret"))) in
  let st0 := fst (run [Connection 1 "A" "10.0.0.1"] (start [] [] [] [] None)) in
  on_message "A" 1 (envelope "ban_user" [("userId", JStr "A")]) "t" st = (st, []) ∧
  on_message "A" 1 (envelope "get_reports" [("adminKey", JStr "guess")]) "t" st = (st, []) ∧
  on_message "A" 1 (envelope "get_bans" [("adminKey", JStr "guess")]) "t" st0 = (st0, []).
Proof.
  split; [|split].
  - apply (C6_unauthorized_admin_is_ignored _ _ _ _ _ "ban_user");
      [by repeat constructor|reflexivity|discriminate|].
    intros secret [= <-]. discriminate.
  - apply (C6_unauthorized_admin_is_ignored _ _ _ _ _ "get_reports");
      [by repeat constructor|reflexivity|discriminate|].
    intros secret [= <-]. discriminate.
  - apply (C6_unauthorized_admin_is_ignored _ _ _ _ _ "get_bans");
      [by repeat constructor|reflexivity|discriminate|discriminate].
Defined.

(** C6 as stated fails when no secret is configured: an envelope without
    [adminKey] is then served.  Here a plain client bans an identity and is
    acknowledged. *)
Lemma C6_counterexample :
  let st := fst (run [Connection 1 "A" "10.0.0.1"] (start [] [] [] [] None)) in
  let msg := envelope "ban_user" [("userId", JStr "victim")] in
  prop (JObj [("type", JStr "ban_user"); ("userId", JStr "victim")]) "adminKey" = None ∧
  snd (step (Message 1 msg "t") st) =
    [SaveBans [] [JStr "victim"]; Send 1%nat (note "ban_ack" [])] ∧
  bans_userIds st = [] ∧
  bans_userIds (fst (step (Message 1 msg "t") st)) = [JStr "victim"].
Proof. vm_compute. repeat split. Qed.

(** [close] and the address sweep of [ban_user] touch the socket heap and
    nothing else. *)
Lemma set_sockets_id (st : State) : set_sockets (sockets st) st = st.
Proof. by destruct st. Qed.

Lemma close_only_sockets (s : nat) (st : State) :
  close s st = set_sockets (sockets (close s st)) st.
Proof.
  unfold close, set_readyState.
  destruct (readyState_of st s), (sockets st !! s); simpl;
    by rewrite ?set_sockets_id.
Qed.

Lemma set_sockets_twice (m m' : gmap nat Socket) (st : State) :
  set_sockets m (set_sockets m' st) = set_sockets m st.
Proof. done. Qed.

Lemma drop_one_only_sockets (ipv : json) (s : nat) (st : State) :
  fst (drop_one ipv s st) = set_sockets (sockets (fst (drop_one ipv s st))) st.
Proof.
  unfold drop_one. destruct (sockets st !! s) as [k|]; [|by rewrite set_sockets_id].
  destruct (_ && _); simpl; [apply close_only_sockets|by rewrite set_sockets_id].
Qed.

Lemma drop_ip_only_sockets (ipv : json) (cl : list nat) (st : State) :
  fst (drop_ip ipv cl st) = set_sockets (sockets (fst (drop_ip ipv cl st))) st.
Proof.
  revert st. induction cl as [|s cl IH]; intros st; simpl.
  - by rewrite set_sockets_id.
  - pose proof (drop_one_only_sockets ipv s st) as H1.
    destruct (drop_one ipv s st) as [st1 out1]. simpl in H1.
    specialize (IH st1). destruct (drop_ip ipv cl st1) as [st2 out2]. simpl in *.
    rewrite IH at 1. rewrite H1. apply set_sockets_twice.
Qed.

Lemma ban_user_result (sock : nat) (msg : json) (st : State) :
  let userIds := push_new (bans_userIds st) (or_null (prop msg "userId")) in
  let ips := push_new (bans_ips st) (or_null (prop msg "ip")) in
  ∃ heap rest,
    ban_user sock msg st =
      (set_sockets heap (set_bans ips userIds st),
       SaveBans ips userIds :: Send sock (note "ban_ack" []) :: rest).
Proof.
  intros userIds ips. unfold ban_user. fold userIds ips.
  set (st1 := set_bans ips userIds st).
  destruct (connection_of _ st1) as [c|].
  - pose proof (drop_ip_only_sockets (or_null (prop msg "ip"))
                  (clients (close (socket c) st1)) (close (socket c) st1)) as H.
    destruct (drop_ip _ _ (close (socket c) st1)) as [st3 out3]. simpl in H.
    eexists (sockets st3), _. rewrite H at 1.
    by rewrite (close_only_sockets (socket c) st1).
  - pose proof (drop_ip_only_sockets (or_null (prop msg "ip")) (clients st1) st1) as H.
    destruct (drop_ip _ _ st1) as [st3 out3]. simpl in H.
    eexists (sockets st3), _. by rewrite H at 1.
Qed.

(** ** Bans *)

Lemma readyState_of_close (s s' : nat) (st : State) :
  readyState_of (close s st) s' =
    if decide (s' = s) then
      match readyState_of st s with
      | OPEN | CONNECTING => CLOSING
      | r => r
      end
    else readyState_of st s'.
Proof.
  unfold close, readyState_of, set_readyState.
  destruct (sockets st !! s) as [k|] eqn:Hk.
  - destruct (readyState k) eqn:Hr; simpl; case_decide; subst;
      rewrite ?lookup_insert_eq, ?lookup_insert_ne, ?Hk by done; done.
  - case_decide; subst; by rewrite ?Hk.
Qed.

Lemma ip_of_close (s s' : nat) (st : State) :
  ip <$> sockets (close s st) !! s' = ip <$> sockets st !! s'.
Proof.
  unfold close, readyState_of, set_readyState.
  destruct (sockets st !! s) as [k|] eqn:Hk; [|done].
  destruct (readyState k); simpl; try done;
    (destruct (decide (s' = s)) as [->|Hne];
     [by rewrite lookup_insert_eq, Hk|by rewrite lookup_insert_ne]).
Qed.

Lemma close_not_OPEN (s s' : nat) (st : State) :
  s' = s ∨ readyState_of st s' ≠ OPEN → readyState_of (close s st) s' ≠ OPEN.
Proof.
  rewrite readyState_of_close. case_decide; subst.
  - intros _. by destruct (readyState_of st s).
  - by intros [?|?].
Qed.

Lemma drop_one_not_OPEN (ipv : json) (s s' : nat) (st : State) :
  readyState_of st s' ≠ OPEN → readyState_of (fst (drop_one ipv s st)) s' ≠ OPEN.
Proof.
  intros H. unfold drop_one. destruct (sockets st !! s); [|done].
  destruct (_ && _); [|done]. simpl. apply close_not_OPEN. by right.
Qed.

Lemma ip_of_drop_one (ipv : json) (s s' : nat) (st : State) :
  ip <$> sockets (fst (drop_one ipv s st)) !! s' = ip <$> sockets st !! s'.
Proof.
  unfold drop_one. destruct (sockets st !! s); [|done].
  destruct (_ && _); [|done]. apply ip_of_close.
Qed.

Lemma drop_ip_not_OPEN (ipv : json) (cl : list nat) (s' : nat) (st : State) :
  readyState_of st s' ≠ OPEN → readyState_of (fst (drop_ip ipv cl st)) s' ≠ OPEN.
Proof.
  revert st. induction cl as [|s cl IH]; intros st H; simpl; [done|].
  pose proof (drop_one_not_OPEN ipv s s' st H) as H1.
  destruct (drop_one ipv s st) as [st1 out1]. simpl in H1.
  specialize (IH st1 H1). by destruct (drop_ip ipv cl st1).
Qed.

(** The sweep leaves no client of the banned address open. *)
Lemma drop_ip_closes (addr : string) (cl : list nat) (s : nat) (st : State) :
  s ∈ cl →
  ip <$> sockets st !! s = Some addr →
  readyState_of (fst (drop_ip (JStr addr) cl st)) s ≠ OPEN.
Proof.
  revert st. induction cl as [|s0 cl IH]; intros st Hin Hip; [by apply elem_of_nil in Hin|].
  simpl. apply elem_of_cons in Hin as [->|Hin].
  - assert (H1 : readyState_of (fst (drop_one (JStr addr) s0 st)) s0 ≠ OPEN).
    { unfold drop_one. destruct (sockets st !! s0) as [k|] eqn:Hk; [|done].
      simpl in Hip. injection Hip as Hip. simpl. rewrite Hip, String.eqb_refl. simpl.
      destruct (is_OPEN (readyState k)) eqn:Ho; simpl.
      - apply close_not_OPEN. by left.
      - unfold readyState_of. rewrite Hk. by destruct (readyState k). }
    destruct (drop_one (JStr addr) s0 st) as [st1 out1]. simpl in H1.
    pose proof (drop_ip_not_OPEN (JStr addr) cl s0 st1 H1).
    by destruct (drop_ip (JStr addr) cl st1).
  - pose proof (ip_of_drop_one (JStr addr) s0 s st) as H1. rewrite Hip in H1.
    destruct (drop_one (JStr addr) s0 st) as [st1 out1]. simpl in H1.
    specialize (IH st1 Hin H1). by destruct (drop_ip (JStr addr) cl st1).
Qed.

(** Banning what the list already holds leaves the list as it is. *)
Lemma push_new_present (arr : list json) (x : json) :
  includes_val arr x = true → push_new arr x = arr.
Proof. intros H. unfold push_new. rewrite H. by rewrite andb_false_r. Qed.

Lemma includes_val_app (arr arr' : list json) (x : json) :
  includes_val (arr ++ arr') x = includes_val arr x || includes_val arr' x.
Proof. apply existsb_app. Qed.

Lemma push_new_idempotent (arr : list json) (u : string) :
  push_new (push_new arr (JStr u)) (JStr u) = push_new arr (JStr u).
Proof.
  destruct (includes_val arr (JStr u)) eqn:Hi.
  - by rewrite !(push_new_present arr).
  - assert (H : push_new arr (JStr u) =
                if truthy (Some (JStr u)) then arr ++ [JStr u] else arr).
    { unfold push_new. rewrite Hi. by rewrite andb_true_r. }
    rewrite H. destruct (truthy (Some (JStr u))) eqn:Ht; [|done].
    apply push_new_present. rewrite includes_val_app. simpl.
    rewrite String.eqb_refl. by rewrite orb_true_r.
Qed.

(** An authorized [ban_user] naming a paired identity sends [banned] to the
    socket of its entry, closes it, and leaves it not open. *)
Lemma ban_user_closes_paired (sock : nat) (msg : json) (u : string) (c : Conn) (st : State) :
  prop msg "userId" = Some (JStr u) →
  u ≠ "" →
  activeConnections st !! u = Some c →
  ∃ rest,
    snd (ban_user sock msg st) =
      [SaveBans (push_new (bans_ips st) (or_null (prop msg "ip")))
                (push_new (bans_userIds st) (JStr u));
       Send sock (note "ban_ack" []);
       Send (socket c) (banned "You were banned by admin."); Close (socket c)] ++ rest ∧
    readyState_of (fst (ban_user sock msg st)) (socket c) ≠ OPEN.
Proof.
  intros Hu Hne Hc.
  assert (Ht : truthy (Some (JStr u)) = true).
  { simpl. apply String.eqb_neq in Hne. by rewrite Hne. }
  assert (Huid : or_null (prop msg "userId") = JStr u).
  { rewrite Hu. unfold or_null. by rewrite Ht. }
  unfold ban_user. rewrite Huid.
  set (st1 := set_bans _ _ st).
  assert (Hconn : connection_of (JStr u) st1 = Some c).
  { unfold connection_of. by rewrite Ht. }
  rewrite Hconn.
  pose proof (drop_ip_not_OPEN (or_null (prop msg "ip")) (clients (close (socket c) st1))
                (socket c) (close (socket c) st1)) as H.
  destruct (drop_ip _ _ (close (socket c) st1)) as [st3 out3].
  exists out3. split; [done|]. apply H. apply close_not_OPEN. by left.
Qed.

(** An authorized [ban_user] naming an address leaves no client of that
    address open. *)
Lemma ban_user_closes_address (sock s : nat) (msg : json) (addr : string) (st : State) :
  prop msg "ip" = Some (JStr addr) →
  addr ≠ "" →
  s ∈ clients st →
  ip <$> sockets st !! s = Some addr →
  readyState_of (fst (ban_user sock msg st)) s ≠ OPEN.
Proof.
  intros Hip Hne Hin Hs.
  assert (Ht : truthy (Some (JStr addr)) = true).
  { simpl. apply String.eqb_neq in Hne. by rewrite Hne. }
  assert (Hipv : or_null (prop msg "ip") = JStr addr).
  { rewrite Hip. unfold or_null. by rewrite Ht. }
  unfold ban_user. rewrite Hipv.
  set (st1 := set_bans _ _ st).
  destruct (connection_of _ st1) as [c|].
  - pose proof (drop_ip_closes addr (clients (close (socket c) st1)) s
                  (close (socket c) st1)) as H.
    destruct (drop_ip _ _ (close (socket c) st1)) as [st3 out3].
    apply H.
    + by rewrite (close_only_sockets (socket c) st1).
    + by rewrite ip_of_close.
  - pose proof (drop_ip_closes addr (clients st1) s st1) as H.
    destruct (drop_ip _ _ st1) as [st3 out3]. by apply H.
Qed.

(** [unban_user] takes the identity off the list and touches no socket. *)
Lemma unban_user_removes (sock : nat) (msg : json) (u : string) (st : State) :
  prop msg "userId" = Some (JStr u) →
  u ≠ "" →
  includes_val (bans_userIds (fst (unban_user sock msg st))) (JStr u) = false ∧
  sockets (fst (unban_user sock msg st)) = sockets st ∧
  clients (fst (unban_user sock msg st)) = clients st.
Proof.
  intros Hu Hne.
  assert (Ht : truthy (Some (JStr u)) = true).
  { simpl. apply String.eqb_neq in Hne. by rewrite Hne. }
  assert (Huid : or_null (prop msg "userId") = JStr u).
  { rewrite Hu. unfold or_null. by rewrite Ht. }
  unfold unban_user. rewrite Huid. simpl fst.
  split; [|done]. simpl bans_userIds. unfold remove_val. rewrite Ht.
  unfold includes_val, filter_ne.
  apply not_true_is_false. intros H. apply existsb_exists in H as (y & Hy & Heq).
  apply filter_In in Hy as [_ Hy]. rewrite Heq in Hy. done.
Qed.

(** C7, evaluated where the code departs from it.  X is connected, open and
    not paired.  An authorized [ban_user] naming X records the ban and is
    acknowledged, but X is sent nothing and its socket stays open: the
    identity is looked up in the pair table, which holds paired identities
    only.  X's next [find_partner] is served as usual. *)
Theorem C7_ban_misses_unpaired_identity :
  let st := fst (run [Connection 1 "admin" "10.0.0.1"; Connection 2 "X" "10.0.0.2"]
                     (start [] [] [] [] (Some "k"))) in
  let ban := envelope "ban_user" [("adminKey", JStr "k"); ("userId", JStr "X")] in
  let st' := fst (step (Message 1 ban "t") st) in
  sockets st !! 2%nat = Some (mkSocket "X" "10.0.0.2" OPEN true) ∧
  snd (step (Message 1 ban "t") st) =
    [SaveBans [] [JStr "X"]; Send 1%nat (note "ban_ack" [])] ∧
  bans_userIds st' = [JStr "X"] ∧
  readyState_of st' 2 = OPEN ∧
  snd (step (Message 2 (envelope "find_partner" []) "t") st') = [Send 2%nat searching].
Proof. vm_compute. repeat split. Qed.

(** ** The pair table *)

Lemma symmetric_b_spec (st : State) : symmetric_b st = true ↔ symmetric st.
Proof.
  unfold symmetric_b, symmetric. rewrite forallb_forall. split.
  - intros H a ca Ha.
    specialize (H (a, ca)). simpl in H.
    destruct (activeConnections st !! partnerId ca) as [cb|].
    + exists cb. split; [done|]. apply String.eqb_eq, H.
      by apply list_elem_of_In, elem_of_map_to_list.
    + discriminate H. by apply list_elem_of_In, elem_of_map_to_list.
  - intros H [a ca] Hin. simpl.
    apply list_elem_of_In, elem_of_map_to_list in Hin.
    destruct (H a ca Hin) as (cb & -> & <-). apply String.eqb_refl.
Qed.

(** Matchmaking keeps the table symmetric. *)
Lemma findPartner_symmetric (uid : string) (sock : nat) (st : State) :
  symmetric st → slot_unpaired st → symmetric (fst (findPartner uid sock st)).
Proof.
  intros Hsym Hslot. unfold findPartner.
  destruct (activeConnections st !! uid) as [c|] eqn:Hu; [done|].
  destruct (waitingUser st) as [[w sw]|] eqn:Hw; [|done].
  destruct (String.eqb_spec w uid) as [He|Hne]; [done|]. simpl.
  destruct (is_OPEN (readyState_of st sw)); [|done]. simpl.
  pose proof (Hslot w sw Hw) as Hwn.
  intros a ca. simpl.
  destruct (decide (a = w)) as [->|Haw].
  { rewrite lookup_insert_eq. intros [= <-]. simpl.
    rewrite lookup_insert_ne by done. rewrite lookup_insert_eq. by eexists. }
  rewrite lookup_insert_ne by done.
  destruct (decide (a = uid)) as [->|Hau].
  { rewrite lookup_insert_eq. intros [= <-]. simpl.
    rewrite lookup_insert_eq. by eexists. }
  rewrite lookup_insert_ne by done. intros Ha.
  destruct (Hsym a ca Ha) as (cb & Hb & Hba). exists cb. split; [|done].
  rewrite !lookup_insert_ne by (intros Heq; rewrite <- Heq in Hb; congruence). done.
Qed.

(** Taking a pair out of a symmetric table, both entries at once, leaves a
    symmetric table. *)
Lemma delete_pair_symmetric (uid : string) (c : Conn) (st : State) :
  symmetric st →
  activeConnections st !! uid = Some c →
  symmetric (set_activeConnections
               (delete uid (delete (partnerId c) (activeConnections st))) st).
Proof.
  intros Hsym Hc a ca. simpl.
  destruct (Hsym uid c Hc) as (pc & Hpc & Hback).
  destruct (decide (a = uid)) as [->|Hau]; [by rewrite lookup_delete_eq|].
  rewrite lookup_delete_ne by done.
  destruct (decide (a = partnerId c)) as [->|Hap]; [by rewrite lookup_delete_eq|].
  rewrite lookup_delete_ne by done. intros Ha.
  destruct (Hsym a ca Ha) as (cb & Hb & Hba). exists cb. split; [|done].
  rewrite !lookup_delete_ne by (intros Heq; rewrite <- Heq in Hb; congruence). done.
Qed.

(** [disconnectPair] keeps the table symmetric whenever the socket stored
    for the partner is open. *)
Lemma disconnectPair_symmetric_partner_open (uid : string) (st : State) :
  symmetric st →
  (∀ c pc, activeConnections st !! uid = Some c →
           activeConnections st !! partnerId c = Some pc →
           readyState_of st (socket pc) = OPEN) →
  symmetric (fst (disconnectPair uid st)).
Proof.
  intros Hsym Hopen. unfold disconnectPair.
  assert (Hcw : symmetric (clear_waiting uid st)).
  { unfold clear_waiting. destruct (waitingUser st) as [[w ?]|]; [|done].
    by destruct (String.eqb w uid). }
  destruct (activeConnections st !! uid) as [c|] eqn:Hc; [|done].
  destruct (String.eqb (partnerId c) ""); [done|]. simpl.
  destruct (Hsym uid c Hc) as (pc & Hpc & Hback). rewrite Hpc.
  rewrite (Hopen c pc eq_refl Hpc). simpl.
  exact (delete_pair_symmetric uid c st Hsym Hc).
Qed.

Lemma disconnectPair_sibling_symmetric (uid : string) (st : State) :
  symmetric st → symmetric (fst (disconnectPair_sibling uid st)).
Proof.
  intros Hsym. unfold disconnectPair_sibling.
  assert (Hcw : symmetric (clear_waiting uid st)).
  { unfold clear_waiting. destruct (waitingUser st) as [[w ?]|]; [|done].
    by destruct (String.eqb w uid). }
  destruct (activeConnections st !! uid) as [c|] eqn:Hc; [|done].
  destruct (String.eqb (partnerId c) ""); [done|]. simpl.
  by apply delete_pair_symmetric.
Qed.

(** C1, evaluated where the code departs from it.  A and B are paired; an
    admin bans B, which closes B's socket; before the transport reports
    the close, A sends [disconnect_chat].  [disconnectPair] finds B's
    socket not open and deletes A's entry only: B still maps to A while A
    has no entry, so the table is no longer symmetric.  It was symmetric
    just before, and the sibling [disconnectPair] keeps it so. *)
Theorem C1_disconnectPair_leaves_half_a_pair :
  let before :=
    fst (run [Connection 1 "A" "10.0.0.1"; Connection 2 "B" "10.0.0.2";
              Connection 3 "admin" "10.0.0.3";
              Message 1 (envelope "find_partner" []) "t";
              Message 2 (envelope "find_partner" []) "t";
              Message 3 (envelope "ban_user" [("adminKey", JStr "k"); ("userId", JStr "B")]) "t"]
             (start [] [] [] [] (Some "k"))) in
  let after := fst (step (Message 1 (envelope "disconnect_chat" []) "t") before) in
  symmetric before ∧
  readyState_of before 2 = CLOSING ∧
  activeConnections after !! "B" = Some (mkConn 2 "A") ∧
  activeConnections after !! "A" = None ∧
  ¬ symmetric after ∧
  symmetric (fst (disconnectPair_sibling "A" before)).
Proof.
  repeat split.
  - apply symmetric_b_spec. vm_compute. reflexivity.
  - intros H. apply symmetric_b_spec in H. vm_compute in H. discriminate.
  - apply symmetric_b_spec. vm_compute. reflexivity.
Qed.

(** The same happens with no ban at all, when B's transport starts closing
    on its own; and the half pair does harm later: A pairs again with C,
    then B's ['close'] event sends A a [partner_disconnected] and deletes
    A's new entry, leaving C paired with nobody. *)
Lemma half_a_pair_breaks_the_next_pair :
  let evs := [Connection 1 "A" "10.0.0.1"; Connection 2 "B" "10.0.0.2";
              Connection 3 "C" "10.0.0.3";
              Message 1 (envelope "find_partner" []) "t";
              Message 2 (envelope "find_partner" []) "t";
              PeerClosing 2;
              Message 1 (envelope "disconnect_chat" []) "t";
              Message 3 (envelope "find_partner" []) "t";
              Message 1 (envelope "find_partner" []) "t"] in
  let st := fst (run evs (start [] [] [] [] None)) in
  activeConnections st !! "A" = Some (mkConn 1 "C") ∧
  activeConnections st !! "C" = Some (mkConn 3 "A") ∧
  activeConnections st !! "B" = Some (mkConn 2 "A") ∧
  snd (step (TransportClose 2) st) = [Send 1%nat partner_disconnected] ∧
  activeConnections (fst (step (TransportClose 2) st)) !! "A" = None ∧
  activeConnections (fst (step (TransportClose 2) st)) !! "C" = Some (mkConn 3 "A").
Proof. vm_compute. repeat split. Qed.

(** ** The blocked-word set stays in lower case *)

Lemma relay_state (uid : string) (text : json) (isTyping : option json)
    (signal : list (string * json)) (st : State) :
  fst (sendToPartner uid text st) = st ∧
  fst (notifyTyping uid isTyping st) = st ∧
  fst (forwardToPartner uid signal st) = st.
Proof.
  unfold sendToPartner, notifyTyping, forwardToPartner.
  by destruct (partner_target uid st).
Qed.

Lemma clear_waiting_BAD_WORDS (uid : string) (st : State) :
  BAD_WORDS (clear_waiting uid st) = BAD_WORDS st.
Proof. unfold clear_waiting. by repeat case_match. Qed.

Lemma disconnectPair_BAD_WORDS (uid : string) (st : State) :
  BAD_WORDS (fst (disconnectPair uid st)) = BAD_WORDS st.
Proof.
  unfold disconnectPair. repeat case_match; simplify_eq; simpl;
    rewrite ?clear_waiting_BAD_WORDS; done.
Qed.

Lemma dispatch_BAD_WORDS (uid : string) (sock : nat) (msg : json) (now : string)
    (st : State) :
  BAD_WORDS (fst (dispatch uid sock msg now st)) = BAD_WORDS st.
Proof.
  unfold dispatch, admin_gate.
  destruct (kind_of (prop msg "type")); try done.
  - unfold findPartner. by repeat case_match.
  - repeat case_match; try done. by rewrite (proj1 (relay_state uid j None [] st)).
  - by rewrite (proj1 (proj2 (relay_state uid JNull (prop msg "isTyping") [] st))).
  - apply disconnectPair_BAD_WORDS.
  - by case_match.
  - by case_match.
  - by case_match.
  - case_match; [|done].
    destruct (ban_user_result sock msg st) as (heap & rest & ->). done.
  - by case_match.
  - case_match; try done. by rewrite (proj2 (proj2 (relay_state uid JNull None fields st))).
  - case_match; try done. by rewrite (proj2 (proj2 (relay_state uid JNull None fields st))).
  - case_match; try done. by rewrite (proj2 (proj2 (relay_state uid JNull None fields st))).
Qed.

Lemma close_BAD_WORDS (s : nat) (st : State) : BAD_WORDS (close s st) = BAD_WORDS st.
Proof. by rewrite (close_only_sockets s st). Qed.

(** Every step keeps the blocked words in lower case: only the reload
    replaces the set, by what [loadBadWordsSet] returns. *)
Lemma step_lowercase (ev : Event) (st : State) :
  lowercase (BAD_WORDS st) → lowercase (BAD_WORDS (fst (step ev st))).
Proof.
  intros H. destruct ev as [sock uid addr|sock parsed now|sock|sock|sock|data]; simpl.
  - destruct (sockets st !! sock); [done|]. destruct (uid_in_use uid st); [done|].
    unfold on_connection. case_match; simpl; [|done]. by rewrite close_BAD_WORDS.
  - destruct (sockets st !! sock) as [k|]; [|done].
    destruct (_ && _); [|done]. unfold on_message.
    destruct parsed as [[]|]; try done; by rewrite dispatch_BAD_WORDS.
  - destruct (sockets st !! sock) as [k|]; [|done].
    destruct (is_CLOSED _); [done|].
    assert (Hs : BAD_WORDS (set_readyState sock CLOSED st) = BAD_WORDS st).
    { unfold set_readyState. by case_match. }
    destruct (listening k); simpl; [|by rewrite Hs].
    unfold handleDisconnection.
    by rewrite disconnectPair_BAD_WORDS, clear_waiting_BAD_WORDS; simpl; rewrite Hs.
  - destruct (sockets st !! sock) as [k|]; [|done].
    destruct (_ && _); [|done]. unfold handleDisconnection.
    by rewrite disconnectPair_BAD_WORDS, clear_waiting_BAD_WORDS, close_BAD_WORDS.
  - by rewrite close_BAD_WORDS.
  - destruct (loadBadWordsSet data) as [bad|] eqn:Hd; [|done].
    simpl. by apply (loadBadWordsSet_lowercase data).
Qed.

(** A blocked-word set in lower case stays in lower case along every run,
    reloads of the word list included. *)
Lemma run_lowercase (evs : list Event) (st : State) :
  lowercase (BAD_WORDS st) → lowercase (BAD_WORDS (fst (run evs st))).
Proof.
  revert st. induction evs as [|ev evs IH]; intros st H; simpl; [done|].
  pose proof (step_lowercase ev st H) as H1.
  destruct (step ev st) as [st1 out1]. specialize (IH st1 H1).
  by destruct (run evs st1).
Qed.

(** * Further properties of the script *)

(** ** The bad-word filter *)

Lemma existsb_eqb_elem (w : string) (seen : list string) :
  existsb (String.eqb w) seen = true ↔ w ∈ seen.
Proof.
  rewrite existsb_exists. split.
  - intros (x & Hx & He). apply String.eqb_eq in He. subst. by apply list_elem_of_In.
  - intros H. exists w. split; [by apply list_elem_of_In|apply String.eqb_refl].
Qed.

Lemma Set_of_elem (seen l : list string) (x : string) :
  x ∈ Set_of seen l ↔ x ∈ l ∧ x ∉ seen.
Proof.
  revert seen. induction l as [|w l IH]; intros seen; simpl.
  - rewrite elem_of_nil. tauto.
  - destruct (existsb (String.eqb w) seen) eqn:He.
    + apply existsb_eqb_elem in He. rewrite IH, elem_of_cons.
      split; [tauto|]. intros [[->|H] Hn]; [done|tauto].
    + assert (Hw : w ∉ seen).
      { intros H. apply existsb_eqb_elem in H. congruence. }
      rewrite !elem_of_cons, IH, elem_of_cons.
      destruct (decide (x = w)) as [->|Hne]; [tauto|]. tauto.
Qed.

Lemma Set_of_NoDup (seen l : list string) : NoDup (Set_of seen l).
Proof.
  revert seen. induction l as [|w l IH]; intros seen; simpl; [constructor|].
  destruct (existsb (String.eqb w) seen); [apply IH|].
  constructor; [|apply IH]. rewrite Set_of_elem, elem_of_cons. tauto.
Qed.

(** What the model's loader returns, element by element. *)
Lemma loadBadWordsSet_elements (data : json) :
  data ≠ JNull →
  ∃ bad, loadBadWordsSet data = Some bad ∧ NoDup bad ∧ lowercase bad ∧
    ∀ w, w ∈ bad ↔
         ∃ words raw, prop data "words" = Some (JArr words) ∧ raw ∈ words ∧
                      w = toLowerCase (to_String raw).
Proof.
  intros Hd.
  assert (Hload : loadBadWordsSet data =
            Some (match prop data "words" with
                  | Some (JArr words) =>
                      Set_of [] (map (λ w, toLowerCase (to_String w)) words)
                  | _ => []
                  end)).
  { unfold loadBadWordsSet. destruct data; try done; by repeat case_match. }
  eexists. split; [exact Hload|].
  destruct (prop data "words") as [v|] eqn:Hp.
  2: { split; [constructor|]. split; [constructor|].
       intros w. rewrite elem_of_nil. split; [done|]. by intros (? & ? & ? & _). }
  destruct v as [| | | |words|];
    try (split; [constructor|]; split; [constructor|];
         intros w; rewrite elem_of_nil; split; [done|]; by intros (? & ? & ? & _)).
  split; [apply Set_of_NoDup|]. split.
  - apply (loadBadWordsSet_lowercase data). exact Hload.
  - intros w. rewrite Set_of_elem, list_elem_of_fmap. split.
    + intros [(raw & -> & Hraw) _]. by exists words, raw.
    + intros (ws & raw & [= <-] & Hraw & ->). split; [by exists raw|apply not_elem_of_nil].
Qed.

(** The loader turns a parsed file (other than [null]) whose [words], when
    an array, holds ASCII strings into a set of distinct lower-case words:
    exactly the lower-case forms of those strings, and nothing when [words]
    is missing or is not an array. *)
Theorem loadBadWordsSet_spec (data : json) :
  data ≠ JNull →
  (∀ words, prop data "words" = Some (JArr words) → ascii_strings words) →
  ∃ bad, loadBadWordsSet data = Some bad ∧ NoDup bad ∧ lowercase bad ∧
    ∀ w, w ∈ bad ↔
         ∃ words r, prop data "words" = Some (JArr words) ∧ JStr r ∈ words ∧
                    w = toLowerCase r.
Proof.
  intros Hd Hascii.
  destruct (loadBadWordsSet_elements data Hd) as (bad & Hb & Hnd & Hl & Hmem).
  exists bad. split; [done|]. split; [done|]. split; [done|].
  intros w. rewrite Hmem. split.
  - intros (words & raw & Hp & Hraw & ->).
    destruct (Hascii words Hp raw Hraw) as (r & -> & _). by exists words, r.
  - intros (words & r & Hp & Hr & ->). by exists words, (JStr r).
Qed.

Lemma loadBadWordsSet_spec_witness :
  ∃ bad, loadBadWordsSet (JObj [("words", JArr [JStr "Foo"; JStr "FOO"; JStr "bar"])]) = Some bad ∧
    NoDup bad ∧ lowercase bad ∧
    ∀ w, w ∈ bad ↔
         ∃ words r,
           prop (JObj [("words", JArr [JStr "Foo"; JStr "FOO"; JStr "bar"])]) "words"
             = Some (JArr words) ∧ JStr r ∈ words ∧ w = toLowerCase r.
Proof.
  apply loadBadWordsSet_spec; [discriminate|].
  intros words [= <-] raw Hraw. rewrite !elem_of_cons, elem_of_nil in Hraw.
  destruct Hraw as [-> | [-> | [-> | []]]]; by eexists.
Defined.

(** A text is flagged exactly when it is truthy and the lower-case form of
    its string conversion contains a non-empty word of the set. *)
Theorem containsBadWord_spec (bad : list string) (text : option json) :
  containsBadWord bad text = true ↔
  ∃ t, text = Some t ∧ truthy text = true ∧
       ∃ w a b, w ∈ bad ∧ w ≠ "" ∧ toLowerCase (to_String t) = a +:+ w +:+ b.
Proof.
  unfold containsBadWord. destruct text as [t|]; [|split; [done|by intros (? & ? & _)]].
  destruct (truthy (Some t)) eqn:Ht.
  - rewrite existsb_exists. split.
    + intros (w & Hw & H). apply andb_true_iff in H as [Hne Hin].
      exists t. split; [done|]. split; [done|].
      apply includes_spec in Hin as (a & b & Hab). exists w, a, b.
      split; [by apply list_elem_of_In|]. split; [|done].
      intros ->. done.
    + intros (t' & [= <-] & _ & w & a & b & Hw & Hne & Hab).
      exists w. split; [by apply list_elem_of_In|].
      apply String.eqb_neq in Hne. rewrite Hne. simpl.
      apply includes_spec. eauto.
  - split; [done|]. intros (t' & _ & ? & _). done.
Qed.

Lemma toLowerCase_empty (s : string) : toLowerCase s = "" ↔ s = "".
Proof. destruct s; simpl; split; congruence. Qed.

(** The verdict on a string text depends on its letters only up to case. *)
Theorem containsBadWord_ignores_case (bad : list string) (t t' : string) :
  toLowerCase t = toLowerCase t' →
  containsBadWord bad (Some (JStr t)) = containsBadWord bad (Some (JStr t')).
Proof.
  intros H. unfold containsBadWord.
  assert (Ht : truthy (Some (JStr t)) = truthy (Some (JStr t'))).
  { simpl. f_equal.
    destruct (String.eqb_spec t "") as [->|Hn], (String.eqb_spec t' "") as [->|Hn'];
      try done.
    - simpl in H. symmetry in H. apply (proj1 (toLowerCase_empty _)) in H. done.
    - simpl in H. apply (proj1 (toLowerCase_empty _)) in H. done. }
  rewrite Ht. simpl to_String. by rewrite H.
Qed.

Lemma containsBadWord_ignores_case_witness :
  containsBadWord ["bad"] (Some (JStr "So BAD")) =
  containsBadWord ["bad"] (Some (JStr "so bad")).
Proof. apply containsBadWord_ignores_case. reflexivity. Defined.

(** Loader and filter together, on ASCII text: a non-empty word listed in
    the file, in whatever case, flags every text that contains it in
    whatever case. *)
Theorem listed_word_blocks_text (data : json) (bad : list string)
    (words : list json) (r t : string) :
  loadBadWordsSet data = Some bad →
  prop data "words" = Some (JArr words) →
  ascii_strings words → is_ascii t = true →
  JStr r ∈ words → r ≠ "" → ci_contains t r →
  containsBadWord bad (Some (JStr t)) = true.
Proof.
  intros Hload Hp _ _ Hr Hne Hc.
  assert (Hd : data ≠ JNull) by (intros ->; discriminate).
  destruct (loadBadWordsSet_elements data Hd) as (bad' & Hb & _ & Hl & Hmem).
  rewrite Hload in Hb. injection Hb as <-.
  apply (containsBadWord_hit bad t (toLowerCase r)); [done| | |].
  - apply Hmem. by exists words, (JStr r).
  - intros H. by apply (proj1 (toLowerCase_empty _)) in H.
  - destruct Hc as (a & b & Hab). exists a, b. by rewrite toLowerCase_idemp.
Qed.

Lemma listed_word_blocks_text_witness :
  containsBadWord ["idiot"] (Some (JStr "You IDIOT!")) = true.
Proof.
  apply (listed_word_blocks_text (JObj [("words", JArr [JStr "Idiot"])]) _
           [JStr "Idiot"] "Idiot" "You IDIOT!").
  - reflexivity.
  - reflexivity.
  - intros raw Hraw. apply list_elem_of_singleton in Hraw. subst. by eexists.
  - reflexivity.
  - apply list_elem_of_here.
  - discriminate.
  - by exists "you ", "!".
Defined.

(** ** Consistency of the registries along every run *)

Lemma same_tags_refl (m : gmap nat Socket) : same_tags m m.
Proof. done. Qed.

Lemma same_tags_trans (m1 m2 m3 : gmap nat Socket) :
  same_tags m1 m2 → same_tags m2 m3 → same_tags m1 m3.
Proof. intros H1 H2 s. by rewrite H2, H1. Qed.

Lemma same_tags_sym (m m' : gmap nat Socket) : same_tags m m' → same_tags m' m.
Proof. intros H s. by rewrite H. Qed.

Lemma same_tags_lookup (m m' : gmap nat Socket) (s : nat) (k : Socket) :
  same_tags m m' → m !! s = Some k →
  ∃ k', m' !! s = Some k' ∧ userId k' = userId k ∧ listening k' = listening k ∧
        is_CLOSED (readyState k') = is_CLOSED (readyState k).
Proof.
  intros Ht Hk. specialize (Ht s). rewrite Hk in Ht.
  destruct (m' !! s) as [k'|]; [|done]. simpl in Ht. unfold tag in Ht.
  exists k'. by simplify_eq.
Qed.

Lemma close_same_tags (s : nat) (st : State) :
  same_tags (sockets st) (sockets (close s st)).
Proof.
  intros s'. unfold close, readyState_of, set_readyState.
  destruct (sockets st !! s) as [k|] eqn:Hk; [|done].
  destruct (readyState k) eqn:Hr; simpl; try done;
    (destruct (decide (s' = s)) as [->|Hne];
     [rewrite lookup_insert_eq, Hk; simpl; unfold tag; simpl; by rewrite Hr
     |by rewrite lookup_insert_ne]).
Qed.

Lemma drop_ip_same_tags (ipv : json) (cl : list nat) (st : State) :
  same_tags (sockets st) (sockets (fst (drop_ip ipv cl st))).
Proof.
  revert st. induction cl as [|s cl IH]; intros st; simpl; [done|].
  assert (H1 : same_tags (sockets st) (sockets (fst (drop_one ipv s st)))).
  { unfold drop_one. destruct (sockets st !! s); [|done].
    destruct (_ && _); [apply close_same_tags|done]. }
  destruct (drop_one ipv s st) as [st1 out1]. simpl in H1.
  specialize (IH st1). destruct (drop_ip ipv cl st1) as [st2 out2]. simpl in *.
  by apply (same_tags_trans _ (sockets st1)).
Qed.

Lemma ban_user_frame (sock : nat) (msg : json) (st : State) :
  let st' := fst (ban_user sock msg st) in
  waitingUser st' = waitingUser st ∧ activeConnections st' = activeConnections st ∧
  clients st' = clients st ∧ reports st' = reports st ∧
  same_tags (sockets st) (sockets st').
Proof.
  simpl. destruct (ban_user_result sock msg st) as (heap & rest & Hb).
  repeat split; try by rewrite Hb.
  clear Hb. unfold ban_user. set (st1 := set_bans _ _ st).
  destruct (connection_of _ st1) as [c|].
  - pose proof (drop_ip_same_tags (or_null (prop msg "ip"))
                  (clients (close (socket c) st1)) (close (socket c) st1)) as H.
    destruct (drop_ip _ _ (close (socket c) st1)) as [st3 out3]. simpl in *.
    apply (same_tags_trans _ (sockets (close (socket c) st1))); [|done].
    apply (close_same_tags (socket c) st1).
  - pose proof (drop_ip_same_tags (or_null (prop msg "ip")) (clients st1) st1) as H.
    by destruct (drop_ip _ _ st1) as [st3 out3].
Qed.

Lemma owns_frame (st st' : State) (uid : string) (s : nat) :
  same_tags (sockets st) (sockets st') → owns st uid s → owns st' uid s.
Proof.
  intros Ht (k & Hk & Hu & Hl).
  destruct (same_tags_lookup _ _ _ _ Ht Hk) as (k' & Hk' & Hu' & Hl' & _).
  exists k'. split; [done|]. split; congruence.
Qed.

Lemma not_CLOSED (r : ReadyState) : r ≠ CLOSED ↔ is_CLOSED r = false.
Proof. destruct r; simpl; split; congruence. Qed.

(** A change that leaves slot, table and client set alone and keeps the
    tags of the sockets keeps the registries consistent. *)
Lemma consistent_frame (st st' : State) :
  consistent st →
  waitingUser st' = waitingUser st →
  activeConnections st' = activeConnections st →
  clients st' = clients st →
  same_tags (sockets st) (sockets st') →
  consistent st'.
Proof.
  intros [H1 H2 H3 H4 H5 H6 H7] Hw Ha Hc Ht.
  pose proof (same_tags_sym _ _ Ht) as Ht'.
  constructor.
  - intros w sw. rewrite Hw, Ha. apply H1.
  - intros w sw. rewrite Hw. intros H. by apply (owns_frame st), H2.
  - intros a c. rewrite Ha. intros H. by apply (owns_frame st), H3.
  - intros a c. rewrite Ha. apply H4.
  - intros s s' k k' Hk Hk' Hu.
    destruct (same_tags_lookup _ _ _ _ Ht' Hk) as (k0 & Hk0 & Hu0 & _).
    destruct (same_tags_lookup _ _ _ _ Ht' Hk') as (k0' & Hk0' & Hu0' & _).
    apply (H5 s s' k0 k0'); congruence.
  - by rewrite Hc.
  - intros s. rewrite Hc, H7. split.
    + intros (k & Hk & Hr).
      destruct (same_tags_lookup _ _ _ _ Ht Hk) as (k' & Hk' & _ & _ & Hcl).
      exists k'. split; [done|]. apply not_CLOSED. apply not_CLOSED in Hr. congruence.
    + intros (k & Hk & Hr).
      destruct (same_tags_lookup _ _ _ _ Ht' Hk) as (k' & Hk' & _ & _ & Hcl).
      exists k'. split; [done|]. apply not_CLOSED. apply not_CLOSED in Hr. congruence.
Qed.

(** Dropping the slot or entries of the table keeps them consistent. *)
Lemma consistent_shrink (st st' : State) :
  consistent st →
  sockets st' = sockets st →
  clients st' = clients st →
  (∀ w sw, waitingUser st' = Some (w, sw) → waitingUser st = Some (w, sw)) →
  (∀ a c, activeConnections st' !! a = Some c → activeConnections st !! a = Some c) →
  consistent st'.
Proof.
  intros [H1 H2 H3 H4 H5 H6 H7] Hs Hc Hw Ha.
  assert (Ho : ∀ uid s, owns st uid s → owns st' uid s).
  { intros uid s (k & Hk & Hu). exists k. by rewrite Hs. }
  constructor.
  - intros w sw H. specialize (H1 w sw (Hw _ _ H)).
    destruct (activeConnections st' !! w) as [c|] eqn:Hc'; [|done].
    apply Ha in Hc'. congruence.
  - intros w sw H. apply Ho, H2, Hw, H.
  - intros a c H. apply Ho, H3, Ha, H.
  - intros a c H. apply H4, Ha, H.
  - rewrite Hs. apply H5.
  - by rewrite Hc.
  - intros s. rewrite Hc, Hs. apply H7.
Qed.

Lemma clear_waiting_shrinks (uid : string) (st : State) :
  sockets (clear_waiting uid st) = sockets st ∧
  clients (clear_waiting uid st) = clients st ∧
  activeConnections (clear_waiting uid st) = activeConnections st ∧
  reports (clear_waiting uid st) = reports st ∧
  (∀ w sw, waitingUser (clear_waiting uid st) = Some (w, sw) →
           waitingUser st = Some (w, sw) ∧ w ≠ uid).
Proof.
  unfold clear_waiting. destruct (waitingUser st) as [[w0 s0]|] eqn:Hw; [|by rewrite Hw].
  destruct (String.eqb_spec w0 uid) as [->|Hne]; simpl; repeat split; try done.
  all: rewrite Hw in *; congruence.
Qed.

Lemma disconnectPair_shrinks (uid : string) (st : State) :
  let st' := fst (disconnectPair uid st) in
  sockets st' = sockets st ∧ clients st' = clients st ∧ reports st' = reports st ∧
  (∀ w sw, waitingUser st' = Some (w, sw) → waitingUser st = Some (w, sw)) ∧
  (∀ a c, activeConnections st' !! a = Some c → activeConnections st !! a = Some c).
Proof.
  simpl. destruct (clear_waiting_shrinks uid st) as (C1 & C2 & C3 & C4 & C5).
  assert (Hcw : sockets (clear_waiting uid st) = sockets st ∧
                clients (clear_waiting uid st) = clients st ∧
                reports (clear_waiting uid st) = reports st ∧
                (∀ w sw, waitingUser (clear_waiting uid st) = Some (w, sw) →
                         waitingUser st = Some (w, sw)) ∧
                (∀ a c, activeConnections (clear_waiting uid st) !! a = Some c →
                        activeConnections st !! a = Some c)).
  { repeat split; try done; [intros w sw H; by apply C5|by rewrite C3]. }
  unfold disconnectPair.
  destruct (activeConnections st !! uid) as [conn|]; [|done].
  destruct (String.eqb (partnerId conn) ""); [done|]. simpl.
  destruct (activeConnections st !! partnerId conn) as [pc|].
  - destruct (is_OPEN _); simpl; repeat split; try done; intros a c H.
    + apply lookup_delete_Some in H as [_ H]. by apply lookup_delete_Some in H as [_ H].
    + by apply lookup_delete_Some in H as [_ H].
  - simpl. repeat split; try done. intros a c H. by apply lookup_delete_Some in H as [_ H].
Qed.

Lemma handleDisconnection_shrinks (uid : string) (st : State) :
  let st' := fst (handleDisconnection uid st) in
  sockets st' = sockets st ∧ clients st' = clients st ∧ reports st' = reports st ∧
  (∀ w sw, waitingUser st' = Some (w, sw) → waitingUser st = Some (w, sw) ∧ w ≠ uid) ∧
  (∀ a c, activeConnections st' !! a = Some c → activeConnections st !! a = Some c).
Proof.
  simpl. unfold handleDisconnection.
  destruct (clear_waiting_shrinks uid st) as (C1 & C2 & C3 & C4 & C5).
  destruct (disconnectPair_shrinks uid (clear_waiting uid st)) as (D1 & D2 & D3 & D4 & D5).
  simpl in *. repeat split; try congruence.
  - by apply C5, D4.
  - by apply (C5 w sw), D4.
  - intros a c H. rewrite <- C3. by apply D5.
Qed.

Lemma uid_in_use_false (uid : string) (st : State) :
  uid_in_use uid st = false →
  ∀ s k, sockets st !! s = Some k → userId k ≠ uid.
Proof.
  unfold uid_in_use. intros H s k Hk Hu.
  apply bool_decide_eq_false in H. apply H. by exists s, k.
Qed.

Lemma consistent_wait (uid : string) (sock : nat) (st : State) :
  consistent st → activeConnections st !! uid = None → owns st uid sock →
  consistent (set_waitingUser (Some (uid, sock)) st).
Proof.
  intros [H1 H2 H3 H4 H5 H6 H7] Hu Ho. constructor; try done.
  - intros w sw [= <- <-]. done.
  - intros w sw [= <- <-]. done.
Qed.

Lemma findPartner_consistent (uid : string) (sock : nat) (st : State) :
  consistent st → owns st uid sock → consistent (fst (findPartner uid sock st)).
Proof.
  intros Hc Ho. unfold findPartner.
  destruct (activeConnections st !! uid) as [c|] eqn:Hu; [done|].
  pose proof (consistent_wait uid sock st Hc Hu Ho) as Hwait.
  destruct (waitingUser st) as [[w sw]|] eqn:Hw; [|done].
  destruct (String.eqb_spec w uid) as [He|Hne]; [done|]. simpl.
  destruct (is_OPEN (readyState_of st sw)); [|done]. simpl.
  destruct Hc as [H1 H2 H3 H4 H5 H6 H7]. constructor; try done.
  - intros a c. simpl. destruct (decide (a = w)) as [->|Haw].
    { rewrite lookup_insert_eq. intros [= <-]. simpl. by apply H2. }
    rewrite lookup_insert_ne by done.
    destruct (decide (a = uid)) as [->|Hau].
    { rewrite lookup_insert_eq. intros [= <-]. done. }
    rewrite lookup_insert_ne by done. apply H3.
  - intros a c. simpl. destruct (decide (a = w)) as [->|Haw].
    { rewrite lookup_insert_eq. intros [= <-]. simpl. congruence. }
    rewrite lookup_insert_ne by done.
    destruct (decide (a = uid)) as [->|Hau].
    { rewrite lookup_insert_eq. intros [= <-]. done. }
    rewrite lookup_insert_ne by done. apply H4.
Qed.

Lemma dispatch_consistent (uid : string) (sock : nat) (msg : json) (now : string)
    (st : State) :
  consistent st → owns st uid sock → consistent (fst (dispatch uid sock msg now st)).
Proof.
  intros Hc Ho. unfold dispatch, admin_gate.
  destruct (kind_of (prop msg "type")); try done.
  - by apply findPartner_consistent.
  - repeat case_match; try done.
    + by apply (consistent_frame st).
    + by rewrite (proj1 (relay_state uid j None [] st)).
  - by rewrite (proj1 (proj2 (relay_state uid JNull (prop msg "isTyping") [] st))).
  - destruct (disconnectPair_shrinks uid st) as (D1 & D2 & D3 & D4 & D5).
    by apply (consistent_shrink st).
  - by apply (consistent_frame st).
  - by case_match.
  - by case_match.
  - by case_match.
  - case_match; [|done].
    destruct (ban_user_frame sock msg st) as (B1 & B2 & B3 & B4 & B5).
    by apply (consistent_frame st).
  - case_match; [|done]. by apply (consistent_frame st).
  - case_match; try done. by rewrite (proj2 (proj2 (relay_state uid JNull None fields st))).
  - case_match; try done. by rewrite (proj2 (proj2 (relay_state uid JNull None fields st))).
  - case_match; try done. by rewrite (proj2 (proj2 (relay_state uid JNull None fields st))).
Qed.

Lemma on_connection_consistent (sock : nat) (uid addr : string) (st : State) :
  consistent st → sockets st !! sock = None → uid_in_use uid st = false →
  consistent (fst (on_connection sock uid addr st)).
Proof.
  intros [H1 H2 H3 H4 H5 H6 H7] Hfresh Huid.
  pose proof (uid_in_use_false uid st Huid) as Hnew.
  set (st' := fst (on_connection sock uid addr st)).
  assert (Hst' : waitingUser st' = waitingUser st ∧
                 activeConnections st' = activeConnections st ∧
                 clients st' = clients st ++ [sock] ∧
                 (∃ k, sockets st' !! sock = Some k ∧ userId k = uid ∧
                       readyState k ≠ CLOSED) ∧
                 (∀ s, s ≠ sock → sockets st' !! s = sockets st !! s)).
  { unfold st', on_connection. simpl bans_userIds. simpl bans_ips.
    destruct (_ || _); simpl.
    - unfold close, readyState_of, set_readyState. simpl.
      rewrite lookup_insert_eq. simpl.
      repeat split; try done.
      + eexists. rewrite lookup_insert_eq. by repeat split.
      + intros s Hs. by rewrite !lookup_insert_ne.
    - repeat split; try done.
      + eexists. rewrite lookup_insert_eq. by repeat split.
      + intros s Hs. by rewrite !lookup_insert_ne. }
  destruct Hst' as (S1 & S2 & S3 & (k0 & S4 & S5 & S6) & S7).
  assert (Hold : ∀ s k, sockets st !! s = Some k → sockets st' !! s = Some k).
  { intros s k Hk. rewrite S7; [done|]. intros ->. congruence. }
  assert (Ho : ∀ a s, owns st a s → owns st' a s).
  { intros a s (k & Hk & Hu). exists k. split; [by apply Hold|done]. }
  constructor.
  - intros w sw. rewrite S1, S2. apply H1.
  - intros w sw. rewrite S1. intros H. by apply Ho, H2.
  - intros a c. rewrite S2. intros H. by apply Ho, H3.
  - intros a c. rewrite S2. apply H4.
  - intros s s' k k' Hk Hk' Hu.
    destruct (decide (s = sock)) as [->|Hs], (decide (s' = sock)) as [->|Hs']; [done| | |].
    + rewrite S7 in Hk' by done. exfalso. apply (Hnew s' k' Hk'). congruence.
    + rewrite S7 in Hk by done. exfalso. apply (Hnew s k Hk). congruence.
    + rewrite S7 in Hk, Hk' by done. by apply (H5 s s' k k').
  - rewrite S3. apply NoDup_app. split; [done|]. split; [|apply NoDup_singleton].
    intros s Hs ->%list_elem_of_singleton. apply H7 in Hs as (k & Hk & _). congruence.
  - intros s. rewrite S3, elem_of_app, list_elem_of_singleton, H7.
    destruct (decide (s = sock)) as [->|Hs].
    + split; [intros _; by exists k0|by right].
    + rewrite S7 by done. tauto.
Qed.

Lemma transport_close_consistent (sock : nat) (k : Socket) (st : State) :
  consistent st → sockets st !! sock = Some k →
  consistent (set_clients (List.filter (fun s => negb (Nat.eqb s sock)) (clients st))
                          (set_readyState sock CLOSED st)).
Proof.
  intros [H1 H2 H3 H4 H5 H6 H7] Hk.
  set (k1 := mkSocket (userId k) (ip k) CLOSED (listening k)).
  set (st1 := set_clients _ _).
  assert (Hst1 : waitingUser st1 = waitingUser st ∧
                 activeConnections st1 = activeConnections st ∧
                 sockets st1 = <[sock := k1]> (sockets st) ∧
                 clients st1 = List.filter (fun s => negb (Nat.eqb s sock)) (clients st)).
  { unfold st1, set_readyState. by rewrite Hk. }
  destruct Hst1 as (R1 & R2 & R3 & R4).
  assert (Ho : ∀ a s, owns st a s → owns st1 a s).
  { intros a s (k' & Hk' & Hu & Hl). unfold owns. rewrite R3.
    destruct (decide (s = sock)) as [->|Hs].
    - exists k1. rewrite lookup_insert_eq. by simplify_eq.
    - exists k'. by rewrite lookup_insert_ne. }
  constructor.
  - intros w sw. rewrite R1, R2. apply H1.
  - intros w sw. rewrite R1. intros H. by apply Ho, H2.
  - intros a c. rewrite R2. intros H. by apply Ho, H3.
  - intros a c. rewrite R2. apply H4.
  - rewrite R3. intros s s' k' k'' Hs Hs' Hu.
    assert (∃ k0, sockets st !! s = Some k0 ∧ userId k0 = userId k') as (k0 & K0 & U0).
    { destruct (decide (s = sock)) as [->|Hne].
      - rewrite lookup_insert_eq in Hs. exists k. by simplify_eq.
      - rewrite lookup_insert_ne in Hs by done. by exists k'. }
    assert (∃ k0', sockets st !! s' = Some k0' ∧ userId k0' = userId k'') as (k0' & K0' & U0').
    { destruct (decide (s' = sock)) as [->|Hne].
      - rewrite lookup_insert_eq in Hs'. exists k. by simplify_eq.
      - rewrite lookup_insert_ne in Hs' by done. by exists k''. }
    apply (H5 s s' k0 k0'); congruence.
  - rewrite R4. apply NoDup_ListNoDup, List.NoDup_filter, NoDup_ListNoDup, H6.
  - intros s. rewrite R3, R4, list_elem_of_In, filter_In, <- list_elem_of_In, H7.
    rewrite negb_true_iff, Nat.eqb_neq.
    destruct (decide (s = sock)) as [->|Hs].
    + rewrite lookup_insert_eq. split; [tauto|]. intros (k' & [= <-] & Hr). done.
    + rewrite lookup_insert_ne by done. tauto.
Qed.

Lemma step_consistent (ev : Event) (st : State) :
  consistent st → consistent (fst (step ev st)).
Proof.
  intros Hc. destruct ev as [sock uid addr|sock parsed now|sock|sock|sock|data]; simpl.
  - destruct (sockets st !! sock) eqn:Hs; [done|].
    destruct (uid_in_use uid st) eqn:Hu; [done|].
    by apply on_connection_consistent.
  - destruct (sockets st !! sock) as [k|] eqn:Hs; [|done].
    destruct (listening k) eqn:Hl; [|done]. simpl.
    destruct (is_CLOSED _); [done|]. simpl. unfold on_message.
    destruct parsed as [msg|]; [|done].
    assert (Ho : owns st (userId k) sock) by by exists k.
    destruct msg; try done; by apply dispatch_consistent.
  - destruct (sockets st !! sock) as [k|] eqn:Hs; [|done].
    destruct (is_CLOSED _); [done|].
    pose proof (transport_close_consistent sock k st Hc Hs) as H1.
    destruct (listening k); [|done].
    destruct (handleDisconnection_shrinks (userId k)
                (set_clients (List.filter (fun s => negb (Nat.eqb s sock)) (clients st))
                             (set_readyState sock CLOSED st))) as (D1 & D2 & D3 & D4 & D5).
    eapply consistent_shrink; [exact H1|done|done| |done].
    intros w sw H. by apply D4.
  - destruct (sockets st !! sock) as [k|] eqn:Hs; [|done].
    destruct (_ && _); [|done].
    assert (H1 : consistent (close sock st)).
    { apply (consistent_frame st); try done; try by rewrite (close_only_sockets sock st).
      apply close_same_tags. }
    destruct (handleDisconnection_shrinks (userId k) (close sock st)) as (D1 & D2 & D3 & D4 & D5).
    eapply consistent_shrink; [exact H1|done|done| |done].
    intros w sw H. by apply D4.
  - apply (consistent_frame st); try done; try by rewrite (close_only_sockets sock st).
    apply close_same_tags.
  - destruct (loadBadWordsSet data); [|done]. by apply (consistent_frame st).
Qed.

Lemma start_consistent (bad : list string) (log ips userIds : list json)
    (key : option string) :
  consistent (start bad log ips userIds key).
Proof.
  constructor; simpl; try done.
  - constructor.
  - intros s. rewrite elem_of_nil, lookup_empty. split; [done|]. by intros (? & ? & _).
Qed.

Lemma run_consistent (evs : list Event) (st : State) :
  consistent st → consistent (fst (run evs st)).
Proof.
  revert st. induction evs as [|ev evs IH]; intros st H; simpl; [done|].
  pose proof (step_consistent ev st H) as H1.
  destruct (step ev st) as [st1 out1]. specialize (IH st1 H1).
  by destruct (run evs st1).
Qed.

(** Whatever the events, the identity in the waiting slot has no entry in
    the pair table. *)
Theorem waiting_identity_is_never_paired (evs : list Event) (bad : list string)
    (log ips userIds : list json) (key : option string) (w : string) (sw : nat) :
  let st := fst (run evs (start bad log ips userIds key)) in
  waitingUser st = Some (w, sw) → activeConnections st !! w = None.
Proof.
  intros st. apply (slot_free st). apply run_consistent, start_consistent.
Qed.

Lemma waiting_identity_is_never_paired_witness :
  activeConnections
    (fst (run [Connection 1 "A" "10.0.0.1"; Message 1 (envelope "find_partner" []) "t"]
              (start [] [] [] [] None))) !! "A" = None.
Proof.
  apply (waiting_identity_is_never_paired
           [Connection 1 "A" "10.0.0.1"; Message 1 (envelope "find_partner" []) "t"]
           [] [] [] [] None "A" 1%nat).
  reflexivity.
Defined.

(** Whatever the events, no identity is paired with itself. *)
Theorem nobody_is_paired_with_itself (evs : list Event) (bad : list string)
    (log ips userIds : list json) (key : option string) (a : string) (c : Conn) :
  let st := fst (run evs (start bad log ips userIds key)) in
  activeConnections st !! a = Some c → partnerId c ≠ a.
Proof.
  intros st. apply (no_self st). apply run_consistent, start_consistent.
Qed.

Lemma nobody_is_paired_with_itself_witness :
  partnerId (mkConn 1 "B") ≠ "A".
Proof.
  apply (nobody_is_paired_with_itself
           [Connection 1 "A" "10.0.0.1"; Connection 2 "B" "10.0.0.2";
            Message 1 (envelope "find_partner" []) "t";
            Message 1 (envelope "find_partner" []) "t";
            Message 2 (envelope "find_partner" []) "t"]
           [] [] [] [] None "A" (mkConn 1 "B")).
  reflexivity.
Defined.

(** Whatever the events, the socket kept in the waiting slot or in a table
    entry for an identity is the socket of the connection that was given
    this identity and registered its listeners, and no two sockets carry
    the same identity. *)
Theorem registries_hold_the_identity_own_socket (evs : list Event) (bad : list string)
    (log ips userIds : list json) (key : option string) :
  let st := fst (run evs (start bad log ips userIds key)) in
  (∀ w sw, waitingUser st = Some (w, sw) → owns st w sw) ∧
  (∀ a c, activeConnections st !! a = Some c → owns st a (socket c)) ∧
  (∀ s s' k k', sockets st !! s = Some k → sockets st !! s' = Some k' →
                userId k = userId k' → s = s').
Proof.
  intros st.
  assert (H : consistent st) by apply run_consistent, start_consistent.
  split; [apply (slot_owner st H)|]. split; [apply (entry_owner st H)|apply (ids_unique st H)].
Qed.

(** Whatever the events, [getOnlineCount] is the number of sockets whose
    ['close'] event has not been delivered: [wss.clients] holds each of
    them once, sockets turned away as banned and sockets that are closing
    included. *)
Theorem online_count_is_number_of_unclosed_sockets (evs : list Event)
    (bad : list string) (log ips userIds : list json) (key : option string) :
  let st := fst (run evs (start bad log ips userIds key)) in
  getOnlineCount st =
    Z.of_nat (size (filter (fun p : nat * Socket => is_CLOSED (readyState p.2) = false)
                           (sockets st))).
Proof.
  intros st.
  assert (H : consistent st) by apply run_consistent, start_consistent.
  unfold getOnlineCount. f_equal.
  rewrite <- (size_list_to_set (C := gset nat)) by apply (clients_NoDup st H).
  rewrite <- size_dom. f_equal. apply set_eq. intros s.
  rewrite elem_of_list_to_set, elem_of_dom, (clients_live st H). unfold is_Some.
  split.
  - intros (k & Hk & Hr). exists k. apply map_lookup_filter_Some. split; [done|].
    by apply not_CLOSED.
  - intros (k & Hk). apply map_lookup_filter_Some in Hk as [Hk Hr]. exists k.
    split; [done|]. by apply not_CLOSED.
Qed.

(** ** The report log along every run *)

Lemma unshift_capped_bound (cap : nat) (entry : json) (log : list json) :
  (0 < cap)%nat →
  (List.length (unshift_capped cap entry log) ≤ Nat.max (List.length log) cap)%nat.
Proof.
  intros Hcap. rewrite unshift_capped_cons by done. simpl.
  destruct (Nat.leb_spec cap (List.length log)) as [H|H]; [|lia].
  assert (Hlog : log ≠ []) by (intros ->; simpl in *; lia).
  rewrite (app_removelast_last entry Hlog) at 2.
  rewrite length_app. simpl. lia.
Qed.

Lemma dispatch_reports_bound (uid : string) (sock : nat) (msg : json) (now : string)
    (st : State) :
  (List.length (reports (fst (dispatch uid sock msg now st)))
   ≤ Nat.max (List.length (reports st)) 5000)%nat.
Proof.
  unfold dispatch, admin_gate.
  destruct (kind_of (prop msg "type")); try (simpl; lia).
  - unfold findPartner. repeat case_match; simpl; lia.
  - repeat case_match; try (simpl; lia).
    + simpl. pose proof (unshift_capped_bound 1000 (auto_report uid j now st) (reports st)). lia.
    + rewrite (proj1 (relay_state uid j None [] st)). lia.
  - rewrite (proj1 (proj2 (relay_state uid JNull (prop msg "isTyping") [] st))). lia.
  - destruct (disconnectPair_shrinks uid st) as (_ & _ & -> & _). lia.
  - simpl. pose proof (unshift_capped_bound 5000 (user_report uid msg now) (reports st)). lia.
  - case_match; simpl; lia.
  - case_match; simpl; lia.
  - case_match; simpl; lia.
  - case_match; [|simpl; lia].
    destruct (ban_user_frame sock msg st) as (_ & _ & _ & -> & _). lia.
  - case_match; simpl; lia.
  - case_match; try (simpl; lia).
    rewrite (proj2 (proj2 (relay_state uid JNull None fields st))). lia.
  - case_match; try (simpl; lia).
    rewrite (proj2 (proj2 (relay_state uid JNull None fields st))). lia.
  - case_match; try (simpl; lia).
    rewrite (proj2 (proj2 (relay_state uid JNull None fields st))). lia.
Qed.

Lemma step_reports_bound (ev : Event) (st : State) :
  (List.length (reports (fst (step ev st))) ≤ Nat.max (List.length (reports st)) 5000)%nat.
Proof.
  destruct ev as [sock uid addr|sock parsed now|sock|sock|sock|data]; simpl.
  - destruct (sockets st !! sock); [simpl; lia|]. destruct (uid_in_use uid st); [simpl; lia|].
    unfold on_connection. case_match; simpl; [|simpl; lia].
    rewrite (close_only_sockets sock _). simpl. lia.
  - destruct (sockets st !! sock) as [k|]; [|simpl; lia].
    destruct (_ && _); [|simpl; lia]. unfold on_message.
    destruct parsed as [[]|]; try (simpl; lia); apply dispatch_reports_bound.
  - destruct (sockets st !! sock) as [k|]; [|simpl; lia].
    destruct (is_CLOSED _); [simpl; lia|].
    assert (Hs : reports (set_readyState sock CLOSED st) = reports st).
    { unfold set_readyState. by case_match. }
    destruct (listening k); simpl; [|rewrite Hs; lia].
    match goal with
    | |- context [handleDisconnection ?u ?s] =>
        destruct (handleDisconnection_shrinks u s) as (_ & _ & -> & _)
    end. simpl. rewrite Hs. lia.
  - destruct (sockets st !! sock) as [k|]; [|simpl; lia].
    destruct (_ && _); [|simpl; lia].
    destruct (handleDisconnection_shrinks (userId k) (close sock st)) as (_ & _ & -> & _).
    rewrite (close_only_sockets sock st). simpl. lia.
  - rewrite (close_only_sockets sock st). simpl. lia.
  - destruct (loadBadWordsSet data); simpl; lia.
Qed.

(** A report log that starts with at most 5000 entries never holds more
    than 5000, whatever the events. *)
Theorem report_log_never_exceeds_5000 (evs : list Event) (st : State) :
  (List.length (reports st) ≤ 5000)%nat →
  (List.length (reports (fst (run evs st))) ≤ 5000)%nat.
Proof.
  revert st. induction evs as [|ev evs IH]; intros st H; simpl; [done|].
  pose proof (step_reports_bound ev st) as H1.
  destruct (step ev st) as [st1 out1]. simpl in H1.
  assert (H2 : (List.length (reports st1) ≤ 5000)%nat) by lia.
  specialize (IH st1 H2). by destruct (run evs st1).
Qed.

Lemma report_log_never_exceeds_5000_witness :
  (List.length
     (reports (fst (run [Connection 1 "A" "10.0.0.1";
                         Message 1 (envelope "report_user" []) "t"]
                        (start [] thousand_reports [] [] None)))) ≤ 5000)%nat.
Proof.
  apply report_log_never_exceeds_5000.
  change (List.length thousand_reports ≤ 5000)%nat.
  unfold thousand_reports. rewrite List.length_map, List.length_seq. lia.
Defined.

Lemma registries_hold_the_identity_own_socket_witness :
  owns (fst (run [Connection 1 "A" "10.0.0.1"; Message 1 (envelope "find_partner" []) "t"]
                 (start [] [] [] [] None))) "A" 1.
Proof.
  apply (proj1 (registries_hold_the_identity_own_socket
                  [Connection 1 "A" "10.0.0.1"; Message 1 (envelope "find_partner" []) "t"]
                  [] [] [] [] None)).
  reflexivity.
Defined.

(** ** Relay of text and signaling *)

Lemma partner_target_open (uid : string) (c pc : Conn) (st : State) :
  activeConnections st !! uid = Some c → partnerId c ≠ "" →
  activeConnections st !! partnerId c = Some pc →
  readyState_of st (socket pc) = OPEN →
  partner_target uid st = Some (socket pc).
Proof.
  intros Hc Hne Hpc Hr. unfold partner_target. rewrite Hc.
  apply String.eqb_neq in Hne. rewrite Hne, Hpc. by rewrite Hr.
Qed.

(** An ASCII text that contains no non-empty blocked word, sent by an
    identity whose partner's socket is open, reaches that socket as one
    [message] carrying the text as it is and nothing else (no sender tag);
    nothing is sent to the sender and the state is unchanged. *)
Theorem clean_text_is_relayed_verbatim (st : State) (uid : string) (sock : nat)
    (msg : json) (t now : string) (c pc : Conn) :
  prop msg "type" = Some (JStr "send_message") →
  prop msg "text" = Some (JStr t) → t ≠ "" → is_ascii t = true →
  (∀ w a b, w ∈ BAD_WORDS st → w ≠ "" → toLowerCase t ≠ a +:+ w +:+ b) →
  activeConnections st !! uid = Some c → partnerId c ≠ "" →
  activeConnections st !! partnerId c = Some pc →
  readyState_of st (socket pc) = OPEN →
  on_message uid sock (Some msg) now st =
    (st, [Send (socket pc) (JObj [("type", JStr "message"); ("text", JStr t)])]).
Proof.
  intros Hty Htx Hne _ Hclean Hc Hp Hpc Hr.
  assert (Hbad : containsBadWord (BAD_WORDS st) (Some (JStr t)) = false).
  { apply not_true_is_false. intros H.
    apply containsBadWord_spec in H as (t' & [= <-] & _ & w & a & b & Hw & Hw' & Hab).
    by apply (Hclean w a b). }
  assert (Ht : truthy (Some (JStr t)) = true).
  { simpl. apply String.eqb_neq in Hne. by rewrite Hne. }
  destruct msg; try discriminate. unfold on_message, dispatch.
  rewrite Hty, Htx. switch_on_type. rewrite Ht, Hbad. simpl negb. cbv iota.
  unfold sendToPartner. by rewrite (partner_target_open uid c pc st).
Qed.

Lemma clean_text_is_relayed_verbatim_witness :
  let st := fst (run [BadWordsChanged (JObj [("words", JArr [JStr "bad"])]);
                      Connection 1 "A" "10.0.0.1"; Connection 2 "B" "10.0.0.2";
                      Message 1 (envelope "find_partner" []) "t0";
                      Message 2 (envelope "find_partner" []) "t0"]
                     (start [] [] [] [] None)) in
  on_message "A" 1 (envelope "send_message" [("text", JStr "Hi")]) "t1" st =
    (st, [Send 2%nat (JObj [("type", JStr "message"); ("text", JStr "Hi")])]).
Proof.
  apply (clean_text_is_relayed_verbatim _ "A" 1%nat _ "Hi" "t1" (mkConn 1 "B") (mkConn 2 "A"));
    try reflexivity; try discriminate.
  intros w a b Hw Hne Hab. vm_compute in Hw.
  apply list_elem_of_singleton in Hw. subst w.
  assert (H : includes "hi" "bad" = true) by (apply includes_spec; by exists a, b).
  discriminate H.
Defined.

Lemma assoc_set_prop_eq (k : string) (v : json) (fields : list (string * json)) :
  assoc k (set_prop k v fields) = Some v.
Proof.
  induction fields as [|[k' v'] fields IH]; simpl.
  - by rewrite String.eqb_refl.
  - destruct (String.eqb k' k) eqn:He; simpl; [by rewrite String.eqb_refl|by rewrite He].
Qed.

Lemma assoc_set_prop_ne (k k0 : string) (v : json) (fields : list (string * json)) :
  k0 ≠ k → assoc k0 (set_prop k v fields) = assoc k0 fields.
Proof.
  intros Hne. induction fields as [|[k' v'] fields IH]; simpl.
  - apply not_eq_sym, String.eqb_neq in Hne. by rewrite Hne.
  - destruct (String.eqb_spec k' k) as [->|Hk]; simpl.
    + apply not_eq_sym, String.eqb_neq in Hne. by rewrite Hne.
    + by rewrite IH.
Qed.

Lemma assoc_assign (k : string) (fields : list (string * json)) :
  assoc k (assign fields) = if String.eqb k "__proto__" then None else assoc k fields.
Proof.
  induction fields as [|[k' v'] fields IH]; simpl; [by destruct (String.eqb k _)|].
  destruct (String.eqb_spec k' "__proto__") as [->|Hp].
  - rewrite IH. destruct (String.eqb_spec k "__proto__") as [->|Hk]; [done|].
    apply not_eq_sym, String.eqb_neq in Hk. by rewrite Hk.
  - simpl. destruct (String.eqb_spec k' k) as [->|Hkk].
    + apply String.eqb_neq in Hp. by rewrite Hp.
    + apply IH.
Qed.

(** A signaling envelope ([video_offer], [video_answer], [ice_candidate])
    from an identity whose partner's socket is open reaches that socket
    once, with the properties it came with, except that [from] is the
    sender's identity, whatever [from] the client wrote itself, and that a
    property named [__proto__] is not passed on. *)
Theorem signaling_is_forwarded_with_sender_tag (st : State) (uid : string) (sock : nat)
    (fields : list (string * json)) (kind now : string) (c pc : Conn) :
  kind ∈ ["video_offer"; "video_answer"; "ice_candidate"] →
  assoc "type" fields = Some (JStr kind) →
  activeConnections st !! uid = Some c → partnerId c ≠ "" →
  activeConnections st !! partnerId c = Some pc →
  readyState_of st (socket pc) = OPEN →
  ∃ payload,
    on_message uid sock (Some (JObj fields)) now st = (st, [Send (socket pc) (JObj payload)]) ∧
    assoc "from" payload = Some (JStr uid) ∧
    assoc "__proto__" payload = None ∧
    ∀ k, k ≠ "from" → k ≠ "__proto__" → assoc k payload = assoc k fields.
Proof.
  intros Hk Hty Hc Hp Hpc Hr.
  exists (set_prop "from" (JStr uid) (assign fields)). split; [|split; [|split]].
  - unfold on_message, dispatch. simpl prop. rewrite Hty.
    rewrite !elem_of_cons, elem_of_nil in Hk.
    destruct Hk as [-> | [-> | [-> | []]]]; switch_on_type;
      unfold forwardToPartner; by rewrite (partner_target_open uid c pc st).
  - apply assoc_set_prop_eq.
  - rewrite assoc_set_prop_ne by done. by rewrite assoc_assign.
  - intros k Hne Hnp. rewrite assoc_set_prop_ne by done. rewrite assoc_assign.
    apply String.eqb_neq in Hnp. by rewrite Hnp.
Qed.

Lemma signaling_is_forwarded_with_sender_tag_witness :
  let st := fst (run [Connection 1 "A" "10.0.0.1"; Connection 2 "B" "10.0.0.2";
                      Message 1 (envelope "find_partner" []) "t0";
                      Message 2 (envelope "find_partner" []) "t0"]
                     (start [] [] [] [] None)) in
  let fields := [("type", JStr "video_offer"); ("from", JStr "B");
                 ("__proto__", JObj [("x", JNum 1)]); ("sdp", JStr "v=0")] in
  ∃ payload,
    on_message "A" 1 (Some (JObj fields)) "t1" st = (st, [Send 2%nat (JObj payload)]) ∧
    assoc "from" payload = Some (JStr "A") ∧
    assoc "__proto__" payload = None ∧
    ∀ k, k ≠ "from" → k ≠ "__proto__" → assoc k payload = assoc k fields.
Proof.
  apply (signaling_is_forwarded_with_sender_tag _ "A" 1%nat _ "video_offer" "t1"
           (mkConn 1 "B") (mkConn 2 "A"));
    try reflexivity; try discriminate.
  apply list_elem_of_here.
Defined.

(** ** Leaving a chat *)

Lemma findPartner_answers (uid : string) (sock : nat) (st : State) :
  activeConnections st !! uid = None →
  ∃ payload rest, snd (findPartner uid sock st) = Send sock payload :: rest.
Proof.
  intros Hu. unfold findPartner. rewrite Hu.
  destruct (waitingUser st) as [[w sw]|]; [|by eexists _, _].
  destruct (negb (String.eqb w uid)); [|by eexists _, _].
  destruct (negb (is_OPEN _)); by eexists _, _.
Qed.

(** [disconnect_chat] from an identity whose partner's socket is open:
    the partner's socket is sent one [partner_disconnected], the sender is
    sent nothing, both entries leave the pair table, every other entry and
    the waiting slot stay, and the sender's next [find_partner] is
    answered again. *)
Theorem disconnect_chat_releases_both (st : State) (uid : string) (sock : nat)
    (msg : json) (now : string) (c pc : Conn) :
  prop msg "type" = Some (JStr "disconnect_chat") →
  activeConnections st !! uid = Some c → partnerId c ≠ "" →
  activeConnections st !! partnerId c = Some pc →
  readyState_of st (socket pc) = OPEN →
  ∃ st',
    on_message uid sock (Some msg) now st = (st', [Send (socket pc) partner_disconnected]) ∧
    activeConnections st' !! uid = None ∧
    activeConnections st' !! partnerId c = None ∧
    (∀ a, a ≠ uid → a ≠ partnerId c →
          activeConnections st' !! a = activeConnections st !! a) ∧
    waitingUser st' = waitingUser st ∧
    ∃ payload rest, snd (findPartner uid sock st') = Send sock payload :: rest.
Proof.
  intros Hty Hc Hp Hpc Hr.
  exists (set_activeConnections
            (delete uid (delete (partnerId c) (activeConnections st))) st).
  assert (Hgone : delete uid (delete (partnerId c) (activeConnections st)) !! uid = None)
    by apply lookup_delete_eq.
  split; [|split; [done|split; [|split; [|split; [done|]]]]].
  - destruct msg; try discriminate. unfold on_message, dispatch. rewrite Hty.
    switch_on_type. unfold disconnectPair. rewrite Hc.
    apply String.eqb_neq in Hp. rewrite Hp, Hpc, Hr. reflexivity.
  - simpl. destruct (decide (uid = partnerId c)) as [<-|Hne]; [apply lookup_delete_eq|].
    rewrite lookup_delete_ne by done. apply lookup_delete_eq.
  - intros a H1 H2. simpl. by rewrite !lookup_delete_ne.
  - by apply findPartner_answers.
Qed.

Lemma disconnect_chat_releases_both_witness :
  let st := fst (run [Connection 1 "A" "10.0.0.1"; Connection 2 "B" "10.0.0.2";
                      Message 1 (envelope "find_partner" []) "t0";
                      Message 2 (envelope "find_partner" []) "t0"]
                     (start [] [] [] [] None)) in
  ∃ st',
    on_message "A" 1 (envelope "disconnect_chat" []) "t1" st =
      (st', [Send 2%nat partner_disconnected]) ∧
    activeConnections st' !! "A" = None ∧
    activeConnections st' !! "B" = None ∧
    (∀ a, a ≠ "A" → a ≠ "B" → activeConnections st' !! a = activeConnections st !! a) ∧
    waitingUser st' = waitingUser st ∧
    ∃ payload rest, snd (findPartner "A" 1 st') = Send 1%nat payload :: rest.
Proof.
  apply (disconnect_chat_releases_both _ "A" 1%nat _ "t1" (mkConn 1 "B") (mkConn 2 "A"));
    try reflexivity; try discriminate.
Defined.

Lemma clear_waiting_other (uid : string) (st : State) :
  (∀ s, waitingUser st ≠ Some (uid, s)) → clear_waiting uid st = st.
Proof.
  intros H. unfold clear_waiting. destruct (waitingUser st) as [[w s]|] eqn:Hw; [|done].
  destruct (String.eqb_spec w uid) as [->|Hne]; [|done]. by destruct (H s).
Qed.

(** For an identity without an entry in the pair table, [disconnectPair]
    and [handleDisconnection] send nothing and leave the table alone: they
    change nothing at all when the identity is not in the waiting slot
    either, and empty the slot when it is. *)
Theorem disconnect_without_partner (st : State) (uid : string) :
  activeConnections st !! uid = None →
  ((∀ s, waitingUser st ≠ Some (uid, s)) →
   disconnectPair uid st = (st, []) ∧ handleDisconnection uid st = (st, [])) ∧
  (∀ s, waitingUser st = Some (uid, s) →
   disconnectPair uid st = (set_waitingUser None st, []) ∧
   handleDisconnection uid st = (set_waitingUser None st, [])).
Proof.
  intros Hu.
  assert (Hd : ∀ st0, activeConnections st0 !! uid = None →
                 disconnectPair uid st0 = (clear_waiting uid st0, [])).
  { intros st0 H0. unfold disconnectPair. by rewrite H0. }
  split.
  - intros Hw. unfold handleDisconnection.
    rewrite (clear_waiting_other uid st Hw). by rewrite (Hd st Hu), (clear_waiting_other uid st Hw).
  - intros s Hw.
    assert (Hcw : clear_waiting uid st = set_waitingUser None st).
    { unfold clear_waiting. by rewrite Hw, String.eqb_refl. }
    unfold handleDisconnection. rewrite Hcw, (Hd st Hu), Hcw. split; [done|].
    by rewrite (Hd (set_waitingUser None st) Hu).
Qed.

Lemma disconnect_without_partner_witness :
  let idle := fst (run [Connection 1 "A" "10.0.0.1"] (start [] [] [] [] None)) in
  let waiting := fst (run [Connection 1 "A" "10.0.0.1";
                           Message 1 (envelope "find_partner" []) "t"]
                          (start [] [] [] [] None)) in
  disconnectPair "A" idle = (idle, []) ∧
  disconnectPair "A" waiting = (set_waitingUser None waiting, []).
Proof.
  split.
  - refine (proj1 (proj1 (disconnect_without_partner _ "A" _) _)).
    + reflexivity.
    + intros s. discriminate.
  - refine (proj1 (proj2 (disconnect_without_partner _ "A" _) 1%nat _)); reflexivity.
Defined.

(** ** Closing and refusing connections *)

Lemma disconnectPair_removes (uid : string) (st : State) :
  (∀ c, activeConnections st !! uid = Some c → partnerId c ≠ "") →
  activeConnections (fst (disconnectPair uid st)) !! uid = None.
Proof.
  intros Hp. unfold disconnectPair.
  destruct (activeConnections st !! uid) as [c|] eqn:Hc.
  - specialize (Hp c eq_refl). apply String.eqb_neq in Hp. rewrite Hp. simpl.
    destruct (activeConnections st !! partnerId c) as [pc|];
      [destruct (is_OPEN _)|]; simpl; apply lookup_delete_eq.
  - simpl. by rewrite (proj1 (proj2 (proj2 (clear_waiting_shrinks uid st)))).
Qed.

(** When the transport reports the close of a connection that had
    registered its listeners: the socket is closed and out of
    [wss.clients], its identity is neither in the waiting slot nor (its
    entry naming a partner) in the pair table, and whatever arrives on that
    socket afterwards, a message or a second close, changes nothing and
    sends nothing. *)
Theorem closed_connection_is_forgotten (st : State) (sock : nat) (k : Socket) :
  sockets st !! sock = Some k → listening k = true → readyState k ≠ CLOSED →
  (∀ c, activeConnections st !! userId k = Some c → partnerId c ≠ "") →
  let st' := fst (step (TransportClose sock) st) in
  readyState_of st' sock = CLOSED ∧
  (sock ∉ clients st') ∧
  (∀ s, waitingUser st' ≠ Some (userId k, s)) ∧
  activeConnections st' !! userId k = None ∧
  (∀ parsed now, step (Message sock parsed now) st' = (st', [])) ∧
  step (TransportClose sock) st' = (st', []).
Proof.
  intros Hs Hl Hr Hp. simpl. rewrite Hs, Hl.
  apply not_CLOSED in Hr. rewrite Hr.
  set (st1 := set_clients _ (set_readyState sock CLOSED st)).
  set (k1 := mkSocket (userId k) (ip k) CLOSED (listening k)).
  assert (Hst1 : sockets st1 = <[sock := k1]> (sockets st) ∧
                 activeConnections st1 = activeConnections st ∧
                 clients st1 = List.filter (fun s => negb (Nat.eqb s sock)) (clients st)).
  { unfold st1, set_readyState. by rewrite Hs. }
  destruct Hst1 as (R1 & R2 & R3).
  destruct (handleDisconnection_shrinks (userId k) st1) as (D1 & D2 & D3 & D4 & D5).
  set (st' := fst (handleDisconnection (userId k) st1)) in *.
  assert (Hk1 : sockets st' !! sock = Some k1).
  { rewrite D1, R1. apply lookup_insert_eq. }
  split; [|split; [|split; [|split; [|split]]]].
  - unfold readyState_of. by rewrite Hk1.
  - rewrite D2, R3, list_elem_of_In, filter_In, Nat.eqb_refl. by intros [_ ?].
  - intros s H. by destruct (D4 _ _ H).
  - unfold st', handleDisconnection. apply disconnectPair_removes.
    rewrite (proj1 (proj2 (proj2 (clear_waiting_shrinks (userId k) st1)))), R2. apply Hp.
  - intros parsed now. simpl. rewrite Hk1. simpl. by rewrite andb_false_r.
  - simpl. by rewrite Hk1.
Qed.

Lemma closed_connection_is_forgotten_witness :
  let st := fst (run [Connection 1 "A" "10.0.0.1"; Message 1 (envelope "find_partner" []) "t"]
                     (start [] [] [] [] None)) in
  let st' := fst (step (TransportClose 1) st) in
  readyState_of st' 1 = CLOSED ∧
  (1%nat ∉ clients st') ∧
  (∀ s, waitingUser st' ≠ Some ("A", s)) ∧
  activeConnections st' !! "A" = None ∧
  (∀ parsed now, step (Message 1 parsed now) st' = (st', [])) ∧
  step (TransportClose 1) st' = (st', []).
Proof.
  apply (closed_connection_is_forgotten _ 1%nat (mkSocket "A" "10.0.0.1" OPEN true));
    try reflexivity; try discriminate.
Defined.

Lemma includes_val_str (arr : list json) (a : string) :
  includes_val arr (JStr a) = true ↔ JStr a ∈ arr.
Proof.
  unfold includes_val. rewrite existsb_exists. split.
  - intros (y & Hy & He). destruct y; try discriminate.
    apply String.eqb_eq in He. subst. by apply list_elem_of_In.
  - intros H. exists (JStr a). split; [by apply list_elem_of_In|]. simpl.
    apply String.eqb_refl.
Qed.

(** A new connection whose identifier or address is on a ban list is sent
    [banned] and closed, gets no [connected], and is never listened to:
    every message it sends afterwards changes nothing and sends nothing.
    Any other new connection is sent [connected] with its identifier and
    is listened to.  Neither touches the waiting slot or the pair table. *)
Theorem connection_is_admitted_unless_banned (st : State) (sock : nat)
    (uid addr : string) :
  sockets st !! sock = None → uid_in_use uid st = false →
  let st' := fst (step (Connection sock uid addr) st) in
  waitingUser st' = waitingUser st ∧ activeConnections st' = activeConnections st ∧
  (JStr uid ∈ bans_userIds st ∨ JStr addr ∈ bans_ips st →
   snd (step (Connection sock uid addr) st) =
     [Send sock (banned "You are banned."); Close sock] ∧
   sockets st' !! sock = Some (mkSocket uid addr CLOSING false) ∧
   ∀ parsed now, step (Message sock parsed now) st' = (st', [])) ∧
  (JStr uid ∉ bans_userIds st → JStr addr ∉ bans_ips st →
   snd (step (Connection sock uid addr) st) = [Send sock (connected uid)] ∧
   sockets st' !! sock = Some (mkSocket uid addr OPEN true)).
Proof.
  intros Hs Hu. simpl. rewrite Hs, Hu. unfold on_connection.
  simpl bans_userIds. simpl bans_ips.
  destruct (includes_val (bans_userIds st) (JStr uid)) eqn:H1;
    [|destruct (includes_val (bans_ips st) (JStr addr)) eqn:H2]; simpl.
  1,2: unfold close, readyState_of, set_readyState; simpl;
       rewrite lookup_insert_eq; simpl; rewrite insert_insert_eq;
       (split; [done|]); (split; [done|]); split.
  1,3: intros _; split; [done|]; split; [apply lookup_insert_eq|];
       intros parsed now; simpl; by rewrite lookup_insert_eq.
  - intros H. apply includes_val_str in H1. done.
  - intros _ H. apply includes_val_str in H2. done.
  - rewrite insert_insert_eq. split; [done|]. split; [done|]. split.
    + intros [H|H]; apply includes_val_str in H; congruence.
    + intros _ _. split; [done|]. apply lookup_insert_eq.
Qed.

Lemma connection_is_admitted_unless_banned_witness :
  let st := start [] [] [JStr "10.6.6.6"] [] None in
  snd (step (Connection 1 "A" "10.6.6.6") st) =
    [Send 1%nat (banned "You are banned."); Close 1%nat] ∧
  snd (step (Connection 1 "A" "10.0.0.1") st) = [Send 1%nat (connected "A")].
Proof.
  split.
  - refine (proj1 (proj1 (proj2 (proj2
      (connection_is_admitted_unless_banned (start [] [] [JStr "10.6.6.6"] [] None)
         1%nat "A" "10.6.6.6" _ _))) _)); [reflexivity|reflexivity|].
    right. apply list_elem_of_here.
  - refine (proj1 (proj2 (proj2 (proj2
      (connection_is_admitted_unless_banned (start [] [] [JStr "10.6.6.6"] [] None)
         1%nat "A" "10.0.0.1" _ _))) _ _)); [reflexivity|reflexivity| |].
    + apply not_elem_of_nil.
    + intros H. apply list_elem_of_singleton in H. discriminate.
Defined.




Lemma filter_ne_absent (arr : list json) (x : json) :
  includes_val arr x = false → filter_ne arr x = arr.
Proof.
  unfold includes_val, filter_ne. induction arr as [|y arr IH]; simpl; [done|].
  intros H. apply orb_false_iff in H as [Hy Hrest]. rewrite Hy. simpl. by rewrite IH.
Qed.

(** Banning an identity and an address that were not banned and then
    unbanning them gives back the two ban lists exactly as they were. *)
Theorem unban_undoes_ban (st : State) (s1 s2 : nat) (msg : json) (u a : string) :
  prop msg "userId" = Some (JStr u) → u ≠ "" →
  prop msg "ip" = Some (JStr a) → a ≠ "" →
  JStr u ∉ bans_userIds st → JStr a ∉ bans_ips st →
  let st2 := fst (unban_user s2 msg (fst (ban_user s1 msg st))) in
  bans_userIds st2 = bans_userIds st ∧ bans_ips st2 = bans_ips st.
Proof.
  intros Hu Hun Ha Han Hnu Hna. simpl.
  destruct (ban_user_result s1 msg st) as (heap & rest & ->).
  assert (Htu : truthy (Some (JStr u)) = true).
  { simpl. apply String.eqb_neq in Hun. by rewrite Hun. }
  assert (Hta : truthy (Some (JStr a)) = true).
  { simpl. apply String.eqb_neq in Han. by rewrite Han. }
  assert (Hou : or_null (prop msg "userId") = JStr u).
  { rewrite Hu. unfold or_null. by rewrite Htu. }
  assert (Hoa : or_null (prop msg "ip") = JStr a).
  { rewrite Ha. unfold or_null. by rewrite Hta. }
  assert (Hround : ∀ arr x, truthy (Some (JStr x)) = true → JStr x ∉ arr →
             remove_val (push_new arr (JStr x)) (JStr x) = arr).
  { intros arr x Ht Hn. unfold remove_val, push_new. rewrite Ht.
    assert (Hi : includes_val arr (JStr x) = false).
    { apply not_true_is_false. by rewrite includes_val_str. }
    rewrite Hi. simpl. unfold filter_ne. rewrite List.filter_app. simpl.
    rewrite String.eqb_refl. simpl. rewrite app_nil_r. by apply filter_ne_absent. }
  unfold unban_user. simpl. rewrite Hou, Hoa. split; by apply Hround.
Qed.

Lemma unban_undoes_ban_witness :
  let st := start [] [] [JStr "10.1.1.1"] [JStr "Z"] None in
  let msg := JObj [("userId", JStr "X"); ("ip", JStr "10.6.6.6")] in
  let st2 := fst (unban_user 1 msg (fst (ban_user 1 msg st))) in
  bans_userIds st2 = bans_userIds st ∧ bans_ips st2 = bans_ips st.
Proof.
  apply (unban_undoes_ban _ 1%nat 1%nat _ "X" "10.6.6.6");
    try reflexivity; try discriminate;
    intros H; apply list_elem_of_singleton in H; discriminate.
Defined.

(** ** Envelopes that are dropped *)

Lemma kind_of_unknown (type : option json) :
  (∀ t, type = Some (JStr t) → t ∉ known_types) → kind_of type = unknown.
Proof.
  intros H. destruct type as [[| | |t| |]|]; try done.
  specialize (H t eq_refl). unfold kind_of.
  destruct (List.find _ kinds) as [[t' k]|] eqn:Hf; [|done].
  apply find_some in Hf as [Hin Heq]. simpl in Heq. apply String.eqb_eq in Heq. subst.
  exfalso. apply H. unfold known_types. apply list_elem_of_In.
  apply (in_map fst kinds (t, k) Hin).
Qed.

(** What the listener drops without changing or sending anything: data
    that does not parse, [null], and any value whose [type] is not one of
    the thirteen known strings (missing, not a string, or unknown, as
    [leave] is); also a [send_message] whose [text] is missing or falsy
    (empty string, [0], [false], [null]). *)
Theorem unknown_envelopes_are_ignored (st : State) (uid : string) (sock : nat)
    (parsed : option json) (now : string) :
  (∀ msg t, parsed = Some msg → prop msg "type" = Some (JStr t) → t ∉ known_types) ∨
  (∃ msg, parsed = Some msg ∧ prop msg "type" = Some (JStr "send_message") ∧
          truthy (prop msg "text") = false) →
  on_message uid sock parsed now st = (st, []).
Proof.
  intros [H|(msg & -> & Hty & Htx)].
  - unfold on_message. destruct parsed as [msg|]; [|done].
    destruct msg; try done; unfold dispatch;
      rewrite kind_of_unknown; try done; intros t Ht; by apply (H _ t eq_refl).
  - destruct msg; try discriminate. unfold on_message, dispatch. rewrite Hty.
    switch_on_type. destruct (prop _ "text") as [text|]; [|done]. by rewrite Htx.
Qed.

Lemma unknown_envelopes_are_ignored_witness :
  let st := fst (run [Connection 1 "A" "10.0.0.1"] (start [] [] [] [] None)) in
  on_message "A" 1 None "t" st = (st, []) ∧
  on_message "A" 1 (envelope "leave" []) "t" st = (st, []) ∧
  on_message "A" 1 (Some (JArr [JStr "find_partner"])) "t" st = (st, []) ∧
  on_message "A" 1 (envelope "send_message" [("text", JStr "")]) "t" st = (st, []).
Proof.
  split; [|split; [|split]].
  - apply unknown_envelopes_are_ignored. left. intros msg t H. discriminate.
  - apply unknown_envelopes_are_ignored. left. intros msg t [= <-] [= <-].
    unfold known_types. simpl. rewrite !elem_of_cons, elem_of_nil.
    intros H. repeat (destruct H as [H|H]; [discriminate|]). done.
  - apply unknown_envelopes_are_ignored. left. intros msg t [= <-]. discriminate.
  - apply unknown_envelopes_are_ignored. right. eexists. repeat split.
Defined.

(** ** The heartbeat *)

Lemma heartbeat_one_other (s s' : nat) (alive : gmap nat bool) :
  s' ≠ s → fst (heartbeat_one s alive) !! s' = alive !! s'.
Proof.
  intros Hne. unfold heartbeat_one.
  destruct (alive !! s) as [[]|]; simpl; by rewrite ?lookup_insert_ne.
Qed.

Lemma heartbeat_one_marks (s : nat) (alive : gmap nat bool) :
  fst (heartbeat_one s alive) !! s = Some false.
Proof.
  unfold heartbeat_one.
  destruct (alive !! s) as [[]|] eqn:H; simpl; by rewrite ?lookup_insert_eq.
Qed.

Lemma heartbeat_keeps_false (cl : list nat) (s : nat) (alive : gmap nat bool) :
  alive !! s = Some false → fst (heartbeat cl alive) !! s = Some false.
Proof.
  revert alive. induction cl as [|s0 cl IH]; intros alive H; simpl; [done|].
  assert (H1 : fst (heartbeat_one s0 alive) !! s = Some false).
  { destruct (decide (s = s0)) as [->|Hne]; [apply heartbeat_one_marks|].
    by rewrite heartbeat_one_other. }
  destruct (heartbeat_one s0 alive) as [alive1 out1]. simpl in H1.
  specialize (IH alive1 H1). by destruct (heartbeat cl alive1).
Qed.

Lemma heartbeat_marks (cl : list nat) (s : nat) (alive : gmap nat bool) :
  s ∈ cl → fst (heartbeat cl alive) !! s = Some false.
Proof.
  revert alive. induction cl as [|s0 cl IH]; intros alive Hin; [by apply elem_of_nil in Hin|].
  simpl. pose proof (heartbeat_one_marks s0 alive) as H0.
  destruct (heartbeat_one s0 alive) as [alive1 out1]. simpl in H0.
  apply elem_of_cons in Hin as [->|Hin].
  - pose proof (heartbeat_keeps_false cl s0 alive1 H0). by destruct (heartbeat cl alive1).
  - specialize (IH alive1 Hin). by destruct (heartbeat cl alive1).
Qed.

Lemma heartbeat_terminates_marked (cl : list nat) (s : nat) (alive : gmap nat bool) :
  s ∈ cl → alive !! s = Some false → Terminate s ∈ snd (heartbeat cl alive).
Proof.
  revert alive. induction cl as [|s0 cl IH]; intros alive Hin H; [by apply elem_of_nil in Hin|].
  simpl. destruct (decide (s = s0)) as [->|Hne].
  - unfold heartbeat_one. rewrite H. destruct (heartbeat cl alive). simpl.
    apply list_elem_of_here.
  - apply elem_of_cons in Hin as [?|Hin]; [done|].
    pose proof (heartbeat_one_other s0 s alive Hne) as H1. rewrite H in H1.
    destruct (heartbeat_one s0 alive) as [alive1 out1]. simpl in H1.
    specialize (IH alive1 Hin H1). destruct (heartbeat cl alive1). simpl in *.
    apply elem_of_app. by right.
Qed.

Lemma pongs_other (pongs : list nat) (s : nat) (alive : gmap nat bool) :
  s ∉ pongs → foldr pong alive pongs !! s = alive !! s.
Proof.
  induction pongs as [|p pongs IH]; intros Hn; simpl; [done|].
  apply not_elem_of_cons in Hn as [Hne Hn]. unfold pong at 1.
  rewrite lookup_insert_ne by done. by apply IH.
Qed.

(** A socket that is probed by one tick and sends no pong before the next
    tick is terminated by that next tick, whatever its [isAlive] was before
    and whichever other sockets answered in between. *)
Theorem silent_socket_is_terminated (cl cl' pongs : list nat) (s : nat)
    (alive : gmap nat bool) :
  s ∈ cl → s ∈ cl' → s ∉ pongs →
  Terminate s ∈ snd (heartbeat cl' (foldr pong (fst (heartbeat cl alive)) pongs)).
Proof.
  intros Hin Hin' Hn. apply heartbeat_terminates_marked; [done|].
  rewrite pongs_other by done. by apply heartbeat_marks.
Qed.

Lemma silent_socket_is_terminated_witness :
  Terminate 2 ∈ snd (heartbeat [1; 2; 3]%nat
                       (foldr pong (fst (heartbeat [1; 2; 3]%nat (pong 2 (pong 1 ∅))))
                              [1; 3]%nat)).
Proof.
  apply silent_socket_is_terminated.
  - rewrite !elem_of_cons. tauto.
  - rewrite !elem_of_cons. tauto.
  - rewrite !not_elem_of_cons. repeat split; try done. apply not_elem_of_nil.
Defined.

Lemma heartbeat_probes_clients (cl : list nat) (alive : gmap nat bool) (p : Probe) :
  p ∈ snd (heartbeat cl alive) → ∃ s, s ∈ cl ∧ (p = Terminate s ∨ p = Ping s).
Proof.
  revert alive. induction cl as [|s0 cl IH]; intros alive; simpl.
  - by intros ?%elem_of_nil.
  - assert (H0 : ∀ q, q ∈ snd (heartbeat_one s0 alive) → q = Terminate s0 ∨ q = Ping s0).
    { unfold heartbeat_one. intros q.
      destruct (alive !! s0) as [[]|]; simpl; intros ->%list_elem_of_singleton; auto. }
    destruct (heartbeat_one s0 alive) as [alive1 out1]. specialize (IH alive1).
    destruct (heartbeat cl alive1) as [alive2 out2]. simpl in *.
    intros [H|H]%elem_of_app.
    + exists s0. split; [apply list_elem_of_here|by apply H0].
    + destruct (IH H) as (s & Hs & Hp). exists s. split; [by apply list_elem_of_further|done].
Qed.

(** A client whose [isAlive] is not [false] when the tick comes (it
    answered the last probe, or was never probed) is pinged and not
    terminated by that tick. *)
Theorem responsive_socket_is_pinged (cl : list nat) (s : nat) (alive : gmap nat bool) :
  NoDup cl → s ∈ cl → alive !! s ≠ Some false →
  Ping s ∈ snd (heartbeat cl alive) ∧ Terminate s ∉ snd (heartbeat cl alive).
Proof.
  revert alive. induction cl as [|s0 cl IH]; intros alive Hnd Hin Ha;
    [by apply elem_of_nil in Hin|].
  apply NoDup_cons in Hnd as [Hs0 Hnd]. simpl.
  destruct (decide (s = s0)) as [->|Hne].
  - assert (H1 : snd (heartbeat_one s0 alive) = [Ping s0]).
    { unfold heartbeat_one. by destruct (alive !! s0) as [[]|]. }
    destruct (heartbeat_one s0 alive) as [alive1 out1]. simpl in H1. subst out1.
    pose proof (heartbeat_probes_clients cl alive1 (Terminate s0)) as Hp.
    destruct (heartbeat cl alive1) as [alive2 out2]. simpl in *.
    split; [apply list_elem_of_here|].
    intros [H|H]%elem_of_cons; [done|].
    destruct (Hp H) as (s & Hs & [[= ->]|?]); done.
  - apply elem_of_cons in Hin as [?|Hin]; [done|].
    pose proof (heartbeat_one_other s0 s alive Hne) as H1.
    assert (H0 : ∀ q, q ∈ snd (heartbeat_one s0 alive) → q = Terminate s0 ∨ q = Ping s0).
    { unfold heartbeat_one. intros q.
      destruct (alive !! s0) as [[]|]; simpl; intros ->%list_elem_of_singleton; auto. }
    destruct (heartbeat_one s0 alive) as [alive1 out1]. simpl in H1, H0.
    assert (Ha1 : alive1 !! s ≠ Some false) by by rewrite H1.
    destruct (IH alive1 Hnd Hin Ha1) as [I1 I2].
    destruct (heartbeat cl alive1) as [alive2 out2]. simpl in *. split.
    + apply elem_of_app. by right.
    + intros [H|H]%elem_of_app; [|done]. destruct (H0 _ H) as [[= ->]|?]; done.
Qed.

Lemma responsive_socket_is_pinged_witness :
  Ping 2 ∈ snd (heartbeat [1; 2]%nat (pong 2 (fst (heartbeat [1; 2]%nat ∅)))) ∧
  Terminate 2 ∉ snd (heartbeat [1; 2]%nat (pong 2 (fst (heartbeat [1; 2]%nat ∅)))).
Proof.
  apply responsive_socket_is_pinged.
  - apply NoDup_cons. split; [|apply NoDup_singleton].
    intros H. apply list_elem_of_singleton in H. discriminate.
  - rewrite !elem_of_cons. tauto.
  - vm_compute. discriminate.
Defined.

(** ** The client address *)

Lemma includes_comma_cons (c : ascii) (r : string) :
  includes (String c r) "," = Ascii.eqb "," c || includes r ",".
Proof. simpl. by rewrite andb_true_r. Qed.

Lemma first_field_no_comma (s : string) : includes (first_field s) "," = false.
Proof.
  induction s as [|c r IH]; simpl first_field; [done|].
  destruct (Ascii.eqb c ",") eqn:Hc; [done|].
  rewrite includes_comma_cons, IH, Ascii.eqb_sym, Hc. done.
Qed.

Lemma trimStart_no_comma (s : string) :
  includes s "," = false → includes (trimStart s) "," = false.
Proof.
  induction s as [|c r IH]; cbn [trimStart]; [done|].
  destruct (is_space c); [|done].
  rewrite includes_comma_cons. intros H. apply orb_false_iff in H as [_ H]. by apply IH.
Qed.

Lemma trimEnd_no_comma (s : string) :
  includes s "," = false → includes (trimEnd s) "," = false.
Proof.
  induction s as [|c r IH]; cbn [trimEnd]; [done|].
  rewrite includes_comma_cons. intros H. apply orb_false_iff in H as [Hc H].
  specialize (IH H). destruct (trimEnd r) as [|d r'].
  - destruct (is_space c); [done|]. rewrite includes_comma_cons, Hc. done.
  - rewrite includes_comma_cons, Hc. done.
Qed.

Lemma trimStart_idemp (s : string) : trimStart (trimStart s) = trimStart s.
Proof.
  induction s as [|c r IH]; cbn [trimStart]; [done|].
  destruct (is_space c) eqn:Hc; [done|]. cbn [trimStart]. by rewrite Hc.
Qed.

Lemma trimEnd_idemp (s : string) : trimEnd (trimEnd s) = trimEnd s.
Proof.
  induction s as [|c r IH]; cbn [trimEnd]; [done|].
  destruct (trimEnd r) as [|d r'] eqn:Hr.
  - destruct (is_space c) eqn:Hc; cbn [trimEnd]; [done|]. by rewrite Hc.
  - change (trimEnd (String c (String d r'))) with
      (match trimEnd (String d r') with
       | EmptyString => if is_space c then EmptyString else String c EmptyString
       | x => String c x
       end).
    by rewrite IH.
Qed.

Lemma trimStart_shorter (r : string) :
  (String.length (trimStart r) ≤ String.length r)%nat.
Proof.
  induction r as [|d r IH]; cbn [trimStart String.length]; [lia|].
  destruct (is_space d); cbn [String.length]; lia.
Qed.

Lemma trimStart_trimEnd (s : string) :
  trimStart s = s → trimStart (trimEnd s) = trimEnd s.
Proof.
  destruct s as [|c r]; [done|]. cbn [trimStart].
  destruct (is_space c) eqn:Hc.
  - intros H. exfalso. pose proof (trimStart_shorter r) as Hlen.
    rewrite H in Hlen. cbn [String.length] in Hlen. lia.
  - intros _. cbn [trimEnd]. destruct (trimEnd r); rewrite ?Hc; cbn [trimStart]; by rewrite Hc.
Qed.

Lemma trim_idemp (s : string) : trim (trim s) = trim s.
Proof.
  unfold trim. rewrite (trimStart_trimEnd (trimStart s)) by apply trimStart_idemp.
  apply trimEnd_idemp.
Qed.

(** The address computed for a connection holds no comma and no white
    space at either end (trimming it again changes nothing), and whenever
    the [x-forwarded-for] header is present and not empty it is decided by
    that header alone, whatever the remote address of the socket. *)
Theorem clientIp_spec (forwarded remote : option string) :
  includes (clientIp forwarded remote) "," = false ∧
  trim (clientIp forwarded remote) = clientIp forwarded remote ∧
  (∀ x remote', forwarded = Some x → x ≠ "" →
                clientIp forwarded remote' = clientIp forwarded remote).
Proof.
  split; [|split].
  - unfold clientIp, trim. apply trimEnd_no_comma, trimStart_no_comma, first_field_no_comma.
  - unfold clientIp. apply trim_idemp.
  - intros x remote' -> Hx. unfold clientIp. apply String.eqb_neq in Hx. by rewrite Hx.
Qed.

Example clientIp_of_a_proxy_chain :
  clientIp (Some " 203.0.113.7 , 10.0.0.2") (Some "10.0.0.2") = "203.0.113.7" ∧
  clientIp None (Some "::1") = "::1" ∧
  clientIp (Some "") None = "".
Proof. repeat split. Qed.

(** ** Witnesses for two lemmas stated earlier *)

Lemma report_user_respects_cap_witness :
  let st := fst (run [Connection 1 "A" "10.0.0.1"] (start [] thousand_reports [] [] None)) in
  let msg := JObj [("type", JStr "report_user"); ("reporterId", JStr "someone else")] in
  let st' := fst (on_message "A" 1 (Some msg) "t" st) in
  reports st' =
    user_report "A" msg "t" ::
      (if (5000 <=? List.length (reports st))%nat
       then removelast (reports st) else reports st) ∧
  ((List.length (reports st) ≤ 5000)%nat → (List.length (reports st') ≤ 5000)%nat).
Proof. apply report_user_respects_cap. reflexivity. Defined.

Lemma findPartner_symmetric_witness :
  let st := fst (run [Connection 1 "A" "10.0.0.1"; Connection 2 "B" "10.0.0.2";
                      Message 1 (envelope "find_partner" []) "t"]
                     (start [] [] [] [] None)) in
  symmetric (fst (findPartner "B" 2 st)).
Proof.
  apply findPartner_symmetric.
  - intros a ca H. vm_compute in H. discriminate.
  - intros w sw H. reflexivity.
Defined.

Lemma ban_user_closes_address_witness :
  let st := fst (run [Connection 1 "admin" "10.0.0.1"; Connection 2 "X" "10.6.6.6"]
                     (start [] [] [] [] (Some "k"))) in
  readyState_of (fst (ban_user 1 (JObj [("ip", JStr "10.6.6.6")]) st)) 2 ≠ OPEN.
Proof.
  apply (ban_user_closes_address 1%nat 2%nat _ "10.6.6.6").
  - reflexivity.
  - discriminate.
  - change (2%nat ∈ [1; 2]%nat). rewrite !elem_of_cons. tauto.
  - reflexivity.
Defined.

Lemma disconnectPair_symmetric_partner_open_witness :
  let st := fst (run [Connection 1 "A" "10.0.0.1"; Connection 2 "B" "10.0.0.2";
                      Message 1 (envelope "find_partner" []) "t";
                      Message 2 (envelope "find_partner" []) "t"]
                     (start [] [] [] [] None)) in
  symmetric (fst (disconnectPair "A" st)).
Proof.
  apply disconnectPair_symmetric_partner_open.
  - apply symmetric_b_spec. vm_compute. reflexivity.
  - intros c pc Hc Hpc. vm_compute in Hc. injection Hc as <-.
    vm_compute in Hpc. injection Hpc as <-. reflexivity.
Defined.

Lemma run_lowercase_witness :
  lowercase
    (BAD_WORDS (fst (run [BadWordsChanged (JObj [("words", JArr [JStr "BAD"; JStr "Worse"])]);
                          Connection 1 "A" "10.0.0.1"]
                         (start ["ugly"] [] [] [] None)))).
Proof.
  apply run_lowercase. by repeat constructor.
Defined.

(** ** Admin envelopes when no secret is configured *)

Lemma sockets_close_other (s0 s : nat) (st : State) :
  s ≠ s0 → sockets (close s0 st) !! s = sockets st !! s.
Proof.
  intros Hne. unfold close, set_readyState.
  destruct (readyState_of st s0), (sockets st !! s0); simpl;
    by rewrite ?lookup_insert_ne.
Qed.

Lemma open_at_close_other (a : string) (s0 s : nat) (st : State) :
  s ≠ s0 → open_at a (close s0 st) s = open_at a st s.
Proof. intros Hne. unfold open_at. by rewrite sockets_close_other. Qed.

Lemma open_at_OPEN (a : string) (s : nat) (st : State) :
  open_at a st s = true → readyState_of st s = OPEN.
Proof.
  unfold open_at, readyState_of. destruct (sockets st !! s) as [k|]; [|done].
  intros [_ H]%andb_true_iff. by destruct (readyState k).
Qed.

Lemma open_at_close_same (a : string) (s : nat) (st : State) :
  open_at a (close s st) s = false.
Proof.
  apply not_true_is_false. intros H%open_at_OPEN.
  by apply (close_not_OPEN s s st); [left|].
Qed.

Lemma drop_one_str (a : string) (s : nat) (st : State) :
  drop_one (JStr a) s st =
    if open_at a st s
    then (close s st, [Send s (banned "Your IP was banned."); Close s])
    else (st, []).
Proof. unfold drop_one, open_at. by destruct (sockets st !! s). Qed.

Lemma drop_ip_null (cl : list nat) (st : State) : drop_ip JNull cl st = (st, []).
Proof.
  induction cl as [|s cl IH]; simpl; [done|].
  assert (H : drop_one JNull s st = (st, [])).
  { unfold drop_one. by destruct (sockets st !! s). }
  by rewrite H, IH.
Qed.

Lemma flat_map_ext_elem {A B : Type} (f g : A → list B) (l : list A) :
  (∀ x, x ∈ l → f x = g x) → flat_map f l = flat_map g l.
Proof.
  induction l as [|x l IH]; intros H; simpl; [done|].
  rewrite (H x) by apply list_elem_of_here.
  rewrite IH; [done|]. intros y Hy. apply H. by apply list_elem_of_further.
Qed.

(** The sweep over a duplicate-free client set, written out: the clients
    that are open at the address are sent [banned] and closed, in order,
    and end up closing; every other socket keeps its [readyState]. *)
Lemma drop_ip_str (a : string) (cl : list nat) (st : State) :
  NoDup cl →
  snd (drop_ip (JStr a) cl st) =
    flat_map (fun s => if open_at a st s
                       then [Send s (banned "Your IP was banned."); Close s] else []) cl ∧
  ∀ s, readyState_of (fst (drop_ip (JStr a) cl st)) s =
       if bool_decide (s ∈ cl) && open_at a st s then CLOSING else readyState_of st s.
Proof.
  revert st. induction cl as [|s0 cl IH]; intros st Hnd; cbn [drop_ip flat_map fst snd].
  - split; [done|]. intros s. by rewrite bool_decide_eq_false_2 by apply not_elem_of_nil.
  - apply NoDup_cons in Hnd as [Hs0 Hnd]. rewrite drop_one_str.
    set (st1 := if open_at a st s0 then close s0 st else st).
    assert (Hst1 : (if open_at a st s0
                    then (close s0 st, [Send s0 (banned "Your IP was banned."); Close s0])
                    else (st, [])) =
                   (st1, if open_at a st s0
                         then [Send s0 (banned "Your IP was banned."); Close s0] else [])).
    { unfold st1. by destruct (open_at a st s0). }
    rewrite Hst1. clear Hst1.
    assert (Hother : ∀ s, s ≠ s0 → open_at a st1 s = open_at a st s ∧
                                    readyState_of st1 s = readyState_of st s).
    { intros s Hne. unfold st1. destruct (open_at a st s0); [|done].
      split; [by apply open_at_close_other|].
      rewrite readyState_of_close. by rewrite decide_False. }
    destruct (IH st1 Hnd) as [IH1 IH2].
    destruct (drop_ip (JStr a) cl st1) as [st2 out2]. cbn [fst snd] in *. split.
    + f_equal. rewrite IH1. apply flat_map_ext_elem. intros s Hs.
      assert (Hne : s ≠ s0) by (by intros ->).
      by rewrite (proj1 (Hother s Hne)).
    + intros s. rewrite IH2. destruct (decide (s = s0)) as [->|Hne].
      * rewrite (bool_decide_eq_false_2 (s0 ∈ cl)) by done.
        rewrite (bool_decide_eq_true_2 (s0 ∈ s0 :: cl)) by apply list_elem_of_here.
        simpl. unfold st1. destruct (open_at a st s0) eqn:Ho; [|done].
        rewrite readyState_of_close, decide_True by done.
        by rewrite (open_at_OPEN a s0 st Ho).
      * destruct (Hother s Hne) as [-> ->].
        assert (Hb : bool_decide (s ∈ s0 :: cl) = bool_decide (s ∈ cl)).
        { apply bool_decide_ext. rewrite elem_of_cons. tauto. }
        by rewrite Hb.
Qed.

Lemma push_new_str (arr : list json) (u : string) :
  u ≠ "" →
  (JStr u ∈ arr → push_new arr (JStr u) = arr) ∧
  (JStr u ∉ arr → push_new arr (JStr u) = arr ++ [JStr u]).
Proof.
  intros Hne. unfold push_new.
  assert (Ht : truthy (Some (JStr u)) = true).
  { simpl. apply String.eqb_neq in Hne. by rewrite Hne. }
  rewrite Ht. split; intros H.
  - apply includes_val_str in H. by rewrite H.
  - assert (Hi : includes_val arr (JStr u) = false).
    { apply not_true_is_false. by rewrite includes_val_str. }
    by rewrite Hi.
Qed.

Lemma filter_ne_str (arr : list json) (u : string) :
  filter_ne arr (JStr u) = List.filter (fun x => negb (is_str u x)) arr.
Proof.
  unfold filter_ne. apply List.filter_ext. intros x. by destruct x.
Qed.

Lemma or_null_str (o : option string) :
  o ≠ Some "" →
  or_null (JStr <$> o) = match o with Some u => JStr u | None => JNull end.
Proof.
  destruct o as [u|]; [|done]. intros H. simpl.
  destruct (String.eqb_spec u "") as [->|Hne]; done.
Qed.

Lemma flat_map_nothing {A B : Type} (l : list A) :
  flat_map (fun _ : A => @nil B) l = [].
Proof. by induction l. Qed.

Lemma sweep_written_out (oa : option string) (st : State) :
  oa ≠ Some "" → NoDup (clients st) →
  let ipv := or_null (JStr <$> oa) in
  let hit s := match oa with Some a => open_at a st s | None => false end in
  snd (drop_ip ipv (clients st) st) =
    flat_map (fun s => if hit s then [Send s (banned "Your IP was banned."); Close s]
                       else []) (clients st) ∧
  ∀ s, readyState_of (fst (drop_ip ipv (clients st) st)) s =
       if bool_decide (s ∈ clients st) && hit s then CLOSING else readyState_of st s.
Proof.
  intros Hne Hnd. cbv zeta. rewrite (or_null_str oa Hne). destruct oa as [a|].
  - by apply drop_ip_str.
  - rewrite drop_ip_null. split; [by rewrite flat_map_nothing|].
    intros s. by rewrite andb_false_r.
Qed.

(** [ban_user] written out for an envelope whose [userId] and [ip] are
    strings or missing. *)
Lemma ban_user_written_out (sock : nat) (msg : json) (st : State)
    (ou oa : option string) :
  prop msg "userId" = JStr <$> ou → prop msg "ip" = JStr <$> oa →
  ou ≠ Some "" → oa ≠ Some "" → NoDup (clients st) →
  let st' := fst (ban_user sock msg st) in
  let t := ban_target st ou in
  (∀ u, ou = Some u →
        (JStr u ∈ bans_userIds st → bans_userIds st' = bans_userIds st) ∧
        (JStr u ∉ bans_userIds st → bans_userIds st' = bans_userIds st ++ [JStr u])) ∧
  (ou = None → bans_userIds st' = bans_userIds st) ∧
  (∀ a, oa = Some a →
        (JStr a ∈ bans_ips st → bans_ips st' = bans_ips st) ∧
        (JStr a ∉ bans_ips st → bans_ips st' = bans_ips st ++ [JStr a])) ∧
  (oa = None → bans_ips st' = bans_ips st) ∧
  snd (ban_user sock msg st) =
    [SaveBans (bans_ips st') (bans_userIds st'); Send sock (note "ban_ack" [])] ++
    match t with
    | Some c => [Send (socket c) (banned "You were banned by admin."); Close (socket c)]
    | None => []
    end ++
    flat_map (fun s => if swept st oa t s
                       then [Send s (banned "Your IP was banned."); Close s] else [])
             (clients st) ∧
  (∀ s, readyState_of st' s =
        if bool_decide (s ∈ clients st) && swept st oa t s then CLOSING
        else if is_target t s then closing (readyState_of st s)
        else readyState_of st s) ∧
  waitingUser st' = waitingUser st ∧ activeConnections st' = activeConnections st ∧
  reports st' = reports st ∧ clients st' = clients st.
Proof.
  intros Hu Ha Hun Han Hnd. cbv zeta.
  destruct (ban_user_frame sock msg st) as (F1 & F2 & F3 & F4 & _).
  assert (Hbans : bans_userIds (fst (ban_user sock msg st)) =
                    push_new (bans_userIds st) (or_null (JStr <$> ou)) ∧
                  bans_ips (fst (ban_user sock msg st)) =
                    push_new (bans_ips st) (or_null (JStr <$> oa))).
  { destruct (ban_user_result sock msg st) as (heap & rest & ->). by rewrite Hu, Ha. }
  destruct Hbans as [Hids Hips].
  split; [|split; [|split; [|split; [|split; [|split; [|done]]]]]].
  - intros u ->. rewrite Hids, or_null_str by done. apply push_new_str. congruence.
  - intros ->. by rewrite Hids.
  - intros a ->. rewrite Hips, or_null_str by done. apply push_new_str. congruence.
  - intros ->. by rewrite Hips.
  - rewrite Hids, Hips. unfold ban_user. rewrite Hu, Ha.
    set (st1 := set_bans _ _ st).
    assert (Hconn : connection_of (or_null (JStr <$> ou)) st1 = ban_target st ou).
    { rewrite or_null_str by done. unfold connection_of, ban_target.
      destruct ou as [u|]; [|done]. simpl.
      destruct (String.eqb_spec u "") as [->|Hne]; done. }
    rewrite Hconn. destruct (ban_target st ou) as [c|] eqn:Ht.
    + destruct (sweep_written_out oa (close (socket c) st1) Han) as [S1 _].
      { by rewrite (close_only_sockets (socket c) st1). }
      assert (Hcl : clients (close (socket c) st1) = clients st)
        by by rewrite (close_only_sockets (socket c) st1).
      rewrite Hcl in *.
      destruct (drop_ip _ (clients st) (close (socket c) st1)) as [st3 out3].
      simpl in S1. simpl. do 4 f_equal. rewrite S1.
      apply flat_map_ext_elem. intros s _. unfold swept. destruct oa as [a|]; [|done].
      simpl. destruct (Nat.eqb_spec s (socket c)) as [->|Hne].
      * by rewrite open_at_close_same, andb_false_r.
      * rewrite open_at_close_other by done. by rewrite andb_true_r.
    + destruct (sweep_written_out oa st1 Han Hnd) as [S1 _].
      change (clients st1) with (clients st) in *.
      destruct (drop_ip _ (clients st) st1) as [st3 out3].
      simpl in S1. simpl. do 2 f_equal. rewrite S1.
      apply flat_map_ext_elem. intros s _. unfold swept. destruct oa as [a|]; [|done].
      simpl. by rewrite andb_true_r.
  - intros s. unfold ban_user. rewrite Hu, Ha.
    set (st1 := set_bans _ _ st).
    assert (Hconn : connection_of (or_null (JStr <$> ou)) st1 = ban_target st ou).
    { rewrite or_null_str by done. unfold connection_of, ban_target.
      destruct ou as [u|]; [|done]. simpl.
      destruct (String.eqb_spec u "") as [->|Hne]; done. }
    rewrite Hconn. destruct (ban_target st ou) as [c|] eqn:Ht.
    + destruct (sweep_written_out oa (close (socket c) st1) Han) as [_ S2].
      { by rewrite (close_only_sockets (socket c) st1). }
      assert (Hcl : clients (close (socket c) st1) = clients st)
        by by rewrite (close_only_sockets (socket c) st1).
      rewrite Hcl in *. specialize (S2 s).
      destruct (drop_ip _ (clients st) (close (socket c) st1)) as [st3 out3].
      simpl in S2. simpl. rewrite S2. unfold swept, is_target.
      rewrite readyState_of_close.
      change (readyState_of st1) with (readyState_of st).
      destruct (Nat.eqb_spec s (socket c)) as [->|Hne].
      * rewrite decide_True by done. unfold closing.
        destruct oa as [a|];
          rewrite ?open_at_close_same, !andb_false_r;
          by destruct (readyState_of st (socket c)).
      * rewrite decide_False by done.
        destruct oa as [a|]; [|by rewrite !andb_false_r].
        rewrite open_at_close_other by done. by rewrite andb_true_r.
    + destruct (sweep_written_out oa st1 Han Hnd) as [_ S2].
      change (clients st1) with (clients st) in *. specialize (S2 s).
      destruct (drop_ip _ (clients st) st1) as [st3 out3].
      simpl in S2. simpl. rewrite S2. unfold swept, is_target.
      destruct oa as [a|]; [|by rewrite !andb_false_r]. by rewrite andb_true_r.
Qed.

Lemma remove_val_str (arr : list json) (o : option string) :
  o ≠ Some "" →
  remove_val arr (or_null (JStr <$> o)) =
    match o with
    | Some u => List.filter (fun x => negb (is_str u x)) arr
    | None => arr
    end.
Proof.
  intros Hne. rewrite or_null_str by done. destruct o as [u|]; [|done].
  unfold remove_val. simpl truthy.
  destruct (String.eqb_spec u "") as [->|Hu]; [done|]. apply filter_ne_str.
Qed.

(** C10. No secret is configured ([ADMIN_KEY] unset) and the envelope has
    no [adminKey] property: the comparison holds, and each of the five
    admin kinds is carried out and answered to the requester.
    [get_user_count], [get_reports] and [get_bans] are answered with the
    number of clients, the report log and the two ban lists.  [ban_user]
    saves the lists, answers [ban_ack] and leaves the rest of the state
    alone but for sockets it closes; for a [userId] and an [ip] that are
    strings or missing it appends each one that is not yet listed, sends
    [banned] to the socket of the identity's table entry and closes it,
    then sends [banned] to every open client of the address and closes
    it.  [unban_user] saves the lists and answers [unban_ack]; for such a
    [userId] and [ip] the lists lose every occurrence of them. *)
Theorem C10_unset_secret_admits_keyless_envelope (st : State) (uid : string)
    (sock : nat) (msg : json) (now : string) :
  ADMIN_KEY st = None →
  prop msg "adminKey" = None →
  authorized (prop msg "adminKey") (ADMIN_KEY st) = true ∧
  (prop msg "type" = Some (JStr "get_user_count") →
   on_message uid sock (Some msg) now st =
     (st, [Send sock (JObj [("type", JStr "user_count");
                            ("count", JNum (Z.of_nat (List.length (clients st))))])])) ∧
  (prop msg "type" = Some (JStr "get_reports") →
   on_message uid sock (Some msg) now st =
     (st, [Send sock (JObj [("type", JStr "reports"); ("reports", JArr (reports st))])])) ∧
  (prop msg "type" = Some (JStr "get_bans") →
   on_message uid sock (Some msg) now st =
     (st, [Send sock (JObj [("type", JStr "bans"); ("bannedIPs", JArr (bans_ips st));
                            ("bannedUserIds", JArr (bans_userIds st))])])) ∧
  (prop msg "type" = Some (JStr "ban_user") →
   (∃ ips userIds heap rest,
      on_message uid sock (Some msg) now st =
        (set_sockets heap (set_bans ips userIds st),
         SaveBans ips userIds :: Send sock (JObj [("type", JStr "ban_ack")]) :: rest)) ∧
   ∀ ou oa,
     prop msg "userId" = JStr <$> ou → prop msg "ip" = JStr <$> oa →
     ou ≠ Some "" → oa ≠ Some "" → NoDup (clients st) →
     let st' := fst (on_message uid sock (Some msg) now st) in
     let t := ban_target st ou in
     (∀ u, ou = Some u →
           (JStr u ∈ bans_userIds st → bans_userIds st' = bans_userIds st) ∧
           (JStr u ∉ bans_userIds st → bans_userIds st' = bans_userIds st ++ [JStr u])) ∧
     (ou = None → bans_userIds st' = bans_userIds st) ∧
     (∀ a, oa = Some a →
           (JStr a ∈ bans_ips st → bans_ips st' = bans_ips st) ∧
           (JStr a ∉ bans_ips st → bans_ips st' = bans_ips st ++ [JStr a])) ∧
     (oa = None → bans_ips st' = bans_ips st) ∧
     snd (on_message uid sock (Some msg) now st) =
       [SaveBans (bans_ips st') (bans_userIds st');
        Send sock (JObj [("type", JStr "ban_ack")])] ++
       match t with
       | Some c => [Send (socket c) (banned "You were banned by admin."); Close (socket c)]
       | None => []
       end ++
       flat_map (fun s => if swept st oa t s
                          then [Send s (banned "Your IP was banned."); Close s] else [])
                (clients st) ∧
     (∀ s, readyState_of st' s =
           if bool_decide (s ∈ clients st) && swept st oa t s then CLOSING
           else if is_target t s then closing (readyState_of st s)
           else readyState_of st s) ∧
     waitingUser st' = waitingUser st ∧ activeConnections st' = activeConnections st ∧
     reports st' = reports st ∧ clients st' = clients st) ∧
  (prop msg "type" = Some (JStr "unban_user") →
   (∃ ips userIds,
      on_message uid sock (Some msg) now st =
        (set_bans ips userIds st,
         [SaveBans ips userIds; Send sock (JObj [("type", JStr "unban_ack")])])) ∧
   ∀ ou oa,
     prop msg "userId" = JStr <$> ou → prop msg "ip" = JStr <$> oa →
     ou ≠ Some "" → oa ≠ Some "" →
     let userIds := match ou with
                    | Some u => List.filter (fun x => negb (is_str u x)) (bans_userIds st)
                    | None => bans_userIds st
                    end in
     let ips := match oa with
                | Some a => List.filter (fun x => negb (is_str a x)) (bans_ips st)
                | None => bans_ips st
                end in
     on_message uid sock (Some msg) now st =
       (set_bans ips userIds st,
        [SaveBans ips userIds; Send sock (JObj [("type", JStr "unban_ack")])])).
Proof.
  intros Hs Hk.
  assert (Ha : authorized (prop msg "adminKey") (ADMIN_KEY st) = true) by by rewrite Hs, Hk.
  assert (Hgo : ∀ t body,
            prop msg "type" = Some (JStr t) →
            (∀ fields, msg = JObj fields →
               dispatch uid sock msg now st = admin_gate msg st body) →
            on_message uid sock (Some msg) now st = body).
  { intros t body Hty Hd. destruct msg; try discriminate.
    unfold on_message. rewrite (Hd _ eq_refl). unfold admin_gate. by rewrite Ha. }
  split; [done|]. split; [|split; [|split; [|split]]].
  - intros Hty. apply (Hgo _ _ Hty). intros fields ->.
    unfold dispatch. rewrite Hty. by switch_on_type.
  - intros Hty. apply (Hgo _ _ Hty). intros fields ->.
    unfold dispatch. rewrite Hty. by switch_on_type.
  - intros Hty. apply (Hgo _ _ Hty). intros fields ->.
    unfold dispatch. rewrite Hty. by switch_on_type.
  - intros Hty.
    assert (Hm : on_message uid sock (Some msg) now st = ban_user sock msg st).
    { apply (Hgo _ _ Hty). intros fields ->.
      unfold dispatch. rewrite Hty. by switch_on_type. }
    rewrite Hm. split.
    + destruct (ban_user_result sock msg st) as (heap & rest & Hb). by eexists _, _, _, _.
    + intros ou oa Hu Hi Hun Han Hnd. by apply ban_user_written_out.
  - intros Hty.
    assert (Hm : on_message uid sock (Some msg) now st = unban_user sock msg st).
    { apply (Hgo _ _ Hty). intros fields ->.
      unfold dispatch. rewrite Hty. by switch_on_type. }
    rewrite Hm. split; [by eexists _, _|].
    intros ou oa Hu Hi Hun Han. cbv zeta. unfold unban_user.
    rewrite Hu, Hi. by rewrite !remove_val_str.
Qed.

Lemma C10_unset_secret_admits_keyless_envelope_witness :
  let st := fst (run [Connection 1 "adm" "10.0.0.1"; Connection 2 "A" "10.6.6.6";
                      Connection 3 "B" "10.0.0.3"; Connection 4 "C" "10.6.6.6";
                      Message 4 (envelope "find_partner" []) "t";
                      Message 3 (envelope "find_partner" []) "t"]
                     (start [] [] [JStr "10.1.1.1"] [JStr "Z"] None)) in
  let ban := JObj [("type", JStr "ban_user"); ("userId", JStr "B"); ("ip", JStr "10.6.6.6")] in
  let unban := JObj [("type", JStr "unban_user"); ("userId", JStr "Z")] in
  snd (on_message "adm" 1 (Some ban) "t" st) =
    [SaveBans [JStr "10.1.1.1"; JStr "10.6.6.6"] [JStr "Z"; JStr "B"];
     Send 1%nat (JObj [("type", JStr "ban_ack")]);
     Send 3%nat (banned "You were banned by admin."); Close 3%nat;
     Send 2%nat (banned "Your IP was banned."); Close 2%nat;
     Send 4%nat (banned "Your IP was banned."); Close 4%nat] ∧
  bans_userIds (fst (on_message "adm" 1 (Some ban) "t" st)) = [JStr "Z"; JStr "B"] ∧
  readyState_of (fst (on_message "adm" 1 (Some ban) "t" st)) 3 = CLOSING ∧
  on_message "adm" 1 (Some unban) "t" st =
    (set_bans [JStr "10.1.1.1"] [] st,
     [SaveBans [JStr "10.1.1.1"] []; Send 1%nat (JObj [("type", JStr "unban_ack")])]) ∧
  on_message "adm" 1 (envelope "get_user_count" []) "t" st =
    (st, [Send 1%nat (JObj [("type", JStr "user_count"); ("count", JNum 4)])]).
Proof.
  intros st ban unban.
  assert (Hnd : NoDup (clients st)).
  { change (NoDup [1; 2; 3; 4]%nat). apply NoDup_ListNoDup.
    repeat (constructor; [simpl; intuition discriminate|]). constructor. }
  destruct (proj2 (C10_unset_secret_admits_keyless_envelope st "adm" 1%nat ban "t"
                     eq_refl eq_refl)) as (_ & _ & _ & Hban & _).
  destruct (proj2 (Hban eq_refl) (Some "B") (Some "10.6.6.6") eq_refl eq_refl)
    as (Hids & _ & _ & _ & Heff & Hrs & _); [discriminate|discriminate|exact Hnd|].
  destruct (proj2 (C10_unset_secret_admits_keyless_envelope st "adm" 1%nat unban "t"
                     eq_refl eq_refl)) as (_ & _ & _ & _ & Hunban).
  destruct (proj2 (C10_unset_secret_admits_keyless_envelope st "adm" 1%nat
                     (JObj [("type", JStr "get_user_count")]) "t" eq_refl eq_refl))
    as (Hcount & _).
  split; [|split; [|split; [|split]]].
  - rewrite Heff. vm_compute. reflexivity.
  - apply (proj2 (Hids "B" eq_refl)). change (JStr "B" ∉ [JStr "Z"]).
    intros H. apply list_elem_of_singleton in H. discriminate.
  - rewrite (Hrs 3%nat). vm_compute. reflexivity.
  - exact (proj2 (Hunban eq_refl) (Some "Z") None eq_refl eq_refl
             ltac:(discriminate) ltac:(discriminate)).
  - exact (Hcount eq_refl).
Defined.
